(** * paint-board: the element / history engine behind [PaintBoard]

    A shallow embedding of [src/utils/paintBoard.ts] (the 0.2.0 board:
    layers, selection, resize, text) together with the properties its
    specification states about undo/redo, hit-testing, layer ordering and
    resizing.

    Conventions.
    - A JavaScript number that holds a coordinate or a width is a rational
      [Q]: every finite double is a rational, [+], [-] and [*] are taken
      exactly (no rounding), and numbers are compared numerically
      ([Qeq_bool], [Qle_bool]), never by their representation.  The only place
      where the board can leave the finite numbers is the division that
      computes a scale factor; its result is a [jsnum].
    - Objects mutated in place (the selected element inside the live stack)
      are modelled by replacing the element at its index in the stack.
    - The drawing surface, the cursor and the persistent store are external
      collaborators: [render], [cache] and [cursor.change] do not touch the
      state modelled here. *)

From Stdlib Require Import ZArith QArith String List Lia.
From stdpp Require Import base option list gmap sorting.

Local Open Scope Z_scope.

(** ** Numbers *)

(** [a < b] on finite numbers. *)
Definition Qlt_bool (a b : Q) : bool := negb (Qle_bool b a).

(** The result of a JavaScript division of finite numbers. *)
Inductive jsnum : Type :=
| Finite (q : Q)
| PosInfinity
| NegInfinity
| NaN.

(** [a / b] as JavaScript computes it on finite operands: a zero divisor gives
    an infinity of the sign of [a], or [NaN] for [0 / 0] (the divisor here is
    a width or a height, a difference of coordinates, so it is never the
    negative zero). *)
Definition jsdiv (a b : Q) : jsnum :=
  if Qeq_bool b 0 then
    match (a ?= 0)%Q with
    | Eq => NaN
    | Gt => PosInfinity
    | Lt => NegInfinity
    end
  else Finite (a / b)%Q.


(** A distance, the non-negative real [sqrt squared], kept exact by storing
    its square. *)
Record Distance : Type := mkDistance { squared : Q }.

(** [d < c] for a distance [d] and a non-negative constant [c]. *)
Definition distance_lt (d : Distance) (c : Q) : bool :=
  Qlt_bool (squared d) (c * c)%Q.

(** ** Geometry records ([@/types]) *)

Record MousePosition : Type := mkPos { pos_x : Q; pos_y : Q }.

Record ElementRect : Type :=
  mkRect { rect_x : Q; rect_y : Q; rect_width : Q; rect_height : Q }.

(** ** Constants ([./constants]) *)

Inductive CANVAS_ELE_TYPE : Type := FREE_LINE | CLEAN_LINE | TEXT.

Inductive RESIZE_TYPE : Type :=
| RESIZE_NULL
| RESIZE_BODY
| TOP_LEFT
| TOP_RIGHT
| BOTTOM_LEFT
| BOTTOM_RIGHT.

Inductive EACH_ORDER_TYPE : Type := FIRST | LAST.

#[global] Instance CANVAS_ELE_TYPE_eq_dec : EqDecision CANVAS_ELE_TYPE.
Proof. solve_decision. Defined.

#[global] Instance RESIZE_TYPE_eq_dec : EqDecision RESIZE_TYPE.
Proof. solve_decision. Defined.

(** ** Elements

    A tagged union of the three element classes, with the fields the board
    reads.  [layer] is the id of the layer the element was created on; it is
    optional because the scans guard it with [ele?.layer] (elements persisted
    before layers existed). *)

Inductive Element : Type :=
| FreeLine (color : string) (width : Q) (layer : option Z)
           (positions : list MousePosition) (rect : ElementRect)
| CleanLine (width : Q) (layer : option Z) (positions : list MousePosition)
            (rect : ElementRect)
| TextElement (layer : option Z) (value : string) (rect : ElementRect).


Definition ele_layer (e : Element) : option Z :=
  match e with
  | FreeLine _ _ l _ _ => l
  | CleanLine _ l _ _ => l
  | TextElement l _ _ => l
  end.

Definition ele_rect (e : Element) : ElementRect :=
  match e with
  | FreeLine _ _ _ _ r => r
  | CleanLine _ _ _ r => r
  | TextElement _ _ r => r
  end.

(** Modelled from the spec: the constructors of [FreeLine] and [CleanLine]
    ([./element/freeLine], [./element/cleanLine]) are not in the sources; a
    fresh stroke has no point yet and an empty bounding box. *)
Definition newFreeLine (color : string) (width : Q) (layer : Z) : Element :=
  FreeLine color width (Some layer) [] (mkRect 0 0 0 0).

Definition newCleanLine (width : Q) (layer : Z) : Element :=
  CleanLine width (Some layer) [] (mkRect 0 0 0 0).

(** ** Structural equality of stacks (numbers compared numerically) *)

Definition pos_eqb (p q : MousePosition) : bool :=
  Qeq_bool (pos_x p) (pos_x q) && Qeq_bool (pos_y p) (pos_y q).

Definition rect_eqb (r s : ElementRect) : bool :=
  Qeq_bool (rect_x r) (rect_x s) && Qeq_bool (rect_y r) (rect_y s)
  && Qeq_bool (rect_width r) (rect_width s)
  && Qeq_bool (rect_height r) (rect_height s).

Fixpoint list_eqb {A : Type} (eqb : A -> A -> bool) (l k : list A) : bool :=
  match l, k with
  | [], [] => true
  | a :: l', b :: k' => eqb a b && list_eqb eqb l' k'
  | _, _ => false
  end.

Definition layer_eqb (a b : option Z) : bool := bool_decide (a = b).

Definition ele_eqb (a b : Element) : bool :=
  match a, b with
  | FreeLine c w l ps r, FreeLine c' w' l' ps' r' =>
      String.eqb c c' && Qeq_bool w w' && layer_eqb l l'
      && list_eqb pos_eqb ps ps' && rect_eqb r r'
  | CleanLine w l ps r, CleanLine w' l' ps' r' =>
      Qeq_bool w w' && layer_eqb l l' && list_eqb pos_eqb ps ps'
      && rect_eqb r r'
  | TextElement l v r, TextElement l' v' r' =>
      layer_eqb l l' && String.eqb v v' && rect_eqb r r'
  | _, _ => false
  end.

Definition stack_eqb (s t : list Element) : bool := list_eqb ele_eqb s t.

(** ** Layers ([./layer]) *)

Record LayerItem : Type := mkLayerItem { layer_id : Z; layer_show : bool }.

Record Layer : Type := mkLayer { layer_stack : list LayerItem; layer_current : Z }.

(** ** History

    Modelled from the spec: the class [History] ([./history]) is not in the
    sources; only its callers are.  The timeline is a list of versions of the
    element stack with a cursor [step]; the live stack is the version under
    the cursor.  A missing live stack ([undefined]) is read as the empty
    stack: both fail the length test of the scans and both make
    [getSelectElement(i).rect] throw. *)

Record History : Type := mkHistory { timeline : list (list Element); step : nat }.

Definition newHistory (stack : list Element) : History := mkHistory [stack] 0.

Definition getCurrentStack (h : History) : list Element :=
  default [] (timeline h !! step h).

(** [add]: entries beyond the cursor are dropped, then the live stack
    extended by the element becomes the new tail and the live view. *)
Definition add (e : Element) (h : History) : History :=
  let kept := take (S (step h)) (timeline h) in
  mkHistory (kept ++ [getCurrentStack h ++ [e]]) (length kept).

(** [undo] / [redo]: one step back / forward; nothing at a boundary. *)
Definition undo (h : History) : History :=
  match step h with
  | O => h
  | S n => mkHistory (timeline h) n
  end.

Definition redo (h : History) : History :=
  if decide (S (step h) < length (timeline h))%nat
  then mkHistory (timeline h) (S (step h))
  else h.

(** [pushStack data prevData]: one entry for a whole interactive edit.  The
    live stack was edited in place, so the version under the cursor is put
    back to the copy taken before the edit and the edited stack becomes the
    new tail.  Nothing is pushed when the two are structurally equal. *)
Definition pushStack (data prevData : list Element) (h : History) : History :=
  if stack_eqb prevData data then h
  else mkHistory (take (step h) (timeline h) ++ [prevData; data]) (S (step h)).

(** [deleteByIndex]: the live stack without one element, as a new entry. *)
Definition deleteByIndex (i : nat) (h : History) : History :=
  let kept := take (S (step h)) (timeline h) in
  mkHistory (kept ++ [delete i (getCurrentStack h)]) (length kept).

(** [clean]: the empty stack, as a new entry. *)
Definition clean (h : History) : History :=
  let kept := take (S (step h)) (timeline h) in
  mkHistory (kept ++ [[]]) (length kept).

(** [Array.prototype.sort] is stable: [a] stays before [b] unless
    [cmp a b > 0]. *)
Fixpoint sort_insert (cmp : Element -> Element -> Z) (a : Element)
    (l : list Element) : list Element :=
  match l with
  | [] => [a]
  | b :: l' => if decide (cmp a b <= 0) then a :: l else b :: sort_insert cmp a l'
  end.

Definition stable_sort (cmp : Element -> Element -> Z) (l : list Element)
    : list Element :=
  foldr (sort_insert cmp) [] l.

(** [sort]: the live stack is sorted in place; the cursor and the other
    versions are untouched. *)
Definition sort (cmp : Element -> Element -> Z) (h : History) : History :=
  match timeline h !! step h with
  | Some stack => mkHistory (<[step h := stable_sort cmp stack]> (timeline h)) (step h)
  | None => h
  end.

(** [each]: the elements of the live stack with their indices, in the order
    the callback sees them: front to back ([FIRST], paint order) or back to
    front ([LAST], topmost first). *)
Definition each_visits (order : EACH_ORDER_TYPE) (h : History)
    : list (Element * nat) :=
  let items := imap (fun i e => (e, i)) (getCurrentStack h) in
  match order with
  | FIRST => items
  | LAST => reverse items
  end.

Definition each {S : Type} (cb : S -> Element -> nat -> S)
    (order : EACH_ORDER_TYPE) (h : History) (s : S) : S :=
  fold_left (fun s (v : Element * nat) => cb s (fst v) (snd v))
            (each_visits order h) s.

(** ** Committed edits *)

(** The cursor is on the last entry of the timeline. *)
Definition at_tail (h : History) : Prop := S (step h) = length (timeline h).

(** The edits that commit a version. *)
Inductive Edit : Type :=
| EditAdd (e : Element)
| EditDelete (index : nat)
| EditClean
| EditPushStack (data prevData : list Element)
| EditSort (cmp : Element -> Element -> Z).

Definition apply_edit (h : History) (ed : Edit) : History :=
  match ed with
  | EditAdd e => add e h
  | EditDelete i => deleteByIndex i h
  | EditClean => clean h
  | EditPushStack data prevData => pushStack data prevData h
  | EditSort cmp => sort cmp h
  end.

Definition run_edits (edits : list Edit) (h : History) : History :=
  fold_left apply_edit edits h.

(** ** Helpers the board imports

    [./common] and the element modules are not in the sources.  The board is
    embedded over any implementation of them. *)

Class Common : Type := {
  getDistance : MousePosition -> MousePosition -> Distance;
  getPositionToLineDistance :
    MousePosition -> MousePosition -> MousePosition -> Distance;
  isInsideRect : MousePosition -> ElementRect -> bool;
  getResizeType : MousePosition -> ElementRect -> RESIZE_TYPE
}.

Class ElementOps : Type := {
  moveFreeLine : Element -> Q -> Q -> Element;
  resizeFreeLine :
    Element -> jsnum -> jsnum -> ElementRect -> RESIZE_TYPE -> Element;
  resizeTextElement : Element -> Q -> Q -> RESIZE_TYPE -> Element
}.

(** ** The board *)

Record PaintBoard : Type := mkBoard {
  history : History;
  originPosition : MousePosition;
  originTranslate : MousePosition;
  canvasRect_top : Q;
  canvasRect_left : Q;
  layer : Layer;
  currentMoveEle : option Element;
  currentLineColor : string;
  currentLineWidth : Q;
  cleanWidth : Q;
  mouseHoverElementIndex : Z;
  selectElementIndex : Z;
  resizeMousePos : MousePosition;
  resizeType : RESIZE_TYPE;
  tempCache : option (list Element);
  isCurrentChange : bool
}.

Definition set_history (b : PaintBoard) (v : History) : PaintBoard :=
  mkBoard v (originPosition b) (originTranslate b) (canvasRect_top b)
    (canvasRect_left b) (layer b) (currentMoveEle b) (currentLineColor b)
    (currentLineWidth b) (cleanWidth b) (mouseHoverElementIndex b)
    (selectElementIndex b) (resizeMousePos b) (resizeType b) (tempCache b)
    (isCurrentChange b).

Definition set_originPosition (b : PaintBoard) (v : MousePosition) : PaintBoard :=
  mkBoard (history b) v (originTranslate b) (canvasRect_top b)
    (canvasRect_left b) (layer b) (currentMoveEle b) (currentLineColor b)
    (currentLineWidth b) (cleanWidth b) (mouseHoverElementIndex b)
    (selectElementIndex b) (resizeMousePos b) (resizeType b) (tempCache b)
    (isCurrentChange b).

Definition set_currentMoveEle (b : PaintBoard) (v : option Element) : PaintBoard :=
  mkBoard (history b) (originPosition b) (originTranslate b) (canvasRect_top b)
    (canvasRect_left b) (layer b) v (currentLineColor b)
    (currentLineWidth b) (cleanWidth b) (mouseHoverElementIndex b)
    (selectElementIndex b) (resizeMousePos b) (resizeType b) (tempCache b)
    (isCurrentChange b).

Definition set_mouseHoverElementIndex (b : PaintBoard) (v : Z) : PaintBoard :=
  mkBoard (history b) (originPosition b) (originTranslate b) (canvasRect_top b)
    (canvasRect_left b) (layer b) (currentMoveEle b) (currentLineColor b)
    (currentLineWidth b) (cleanWidth b) v
    (selectElementIndex b) (resizeMousePos b) (resizeType b) (tempCache b)
    (isCurrentChange b).

Definition set_selectElementIndex (b : PaintBoard) (v : Z) : PaintBoard :=
  mkBoard (history b) (originPosition b) (originTranslate b) (canvasRect_top b)
    (canvasRect_left b) (layer b) (currentMoveEle b) (currentLineColor b)
    (currentLineWidth b) (cleanWidth b) (mouseHoverElementIndex b)
    v (resizeMousePos b) (resizeType b) (tempCache b)
    (isCurrentChange b).

Definition set_resizeMousePos (b : PaintBoard) (v : MousePosition) : PaintBoard :=
  mkBoard (history b) (originPosition b) (originTranslate b) (canvasRect_top b)
    (canvasRect_left b) (layer b) (currentMoveEle b) (currentLineColor b)
    (currentLineWidth b) (cleanWidth b) (mouseHoverElementIndex b)
    (selectElementIndex b) v (resizeType b) (tempCache b)
    (isCurrentChange b).

Definition set_resizeType (b : PaintBoard) (v : RESIZE_TYPE) : PaintBoard :=
  mkBoard (history b) (originPosition b) (originTranslate b) (canvasRect_top b)
    (canvasRect_left b) (layer b) (currentMoveEle b) (currentLineColor b)
    (currentLineWidth b) (cleanWidth b) (mouseHoverElementIndex b)
    (selectElementIndex b) (resizeMousePos b) v (tempCache b)
    (isCurrentChange b).

Definition set_tempCache (b : PaintBoard) (v : option (list Element)) : PaintBoard :=
  mkBoard (history b) (originPosition b) (originTranslate b) (canvasRect_top b)
    (canvasRect_left b) (layer b) (currentMoveEle b) (currentLineColor b)
    (currentLineWidth b) (cleanWidth b) (mouseHoverElementIndex b)
    (selectElementIndex b) (resizeMousePos b) (resizeType b) v
    (isCurrentChange b).

Definition set_isCurrentChange (b : PaintBoard) (v : bool) : PaintBoard :=
  mkBoard (history b) (originPosition b) (originTranslate b) (canvasRect_top b)
    (canvasRect_left b) (layer b) (currentMoveEle b) (currentLineColor b)
    (currentLineWidth b) (cleanWidth b) (mouseHoverElementIndex b)
    (selectElementIndex b) (resizeMousePos b) (resizeType b) (tempCache b)
    v.

(** A method either returns or throws (a [TypeError] on a property of
    [undefined]); in both cases the board is left as mutated so far. *)
Inductive outcome : Type :=
| Returned (b : PaintBoard)
| Thrown (b : PaintBoard).

Definition board_of (o : outcome) : PaintBoard :=
  match o with Returned b => b | Thrown b => b end.

Definition returns (o : outcome) : bool :=
  match o with Returned _ => true | Thrown _ => false end.

Definition and_then (o : outcome) (k : PaintBoard -> outcome) : outcome :=
  match o with Returned b => k b | Thrown b => Thrown b end.

(** [getSelectElement]: [last[index]], [undefined] out of range. *)
Definition getSelectElement (b : PaintBoard) (index : Z) : option Element :=
  if decide (0 <= index)
  then getCurrentStack (history b) !! Z.to_nat index
  else None.

(** The test [this.history.getCurrentStack()?.length ?? 0 > 0], which parses
    as [length ?? (0 > 0)]: true exactly when the live stack is not empty. *)
Definition hasElements (b : PaintBoard) : bool :=
  negb (Nat.eqb (length (getCurrentStack (history b))) 0).

(** [render] repaints and caches; it reads the rectangle of the selected
    element, which throws when the selection points at no element. *)
Definition render (b : PaintBoard) : outcome :=
  if hasElements b && negb (selectElementIndex b =? -1) then
    match getSelectElement b (selectElementIndex b) with
    | Some _ => Returned b
    | None => Thrown b
    end
  else Returned b.

Definition cancelSelectElement (b : PaintBoard) : PaintBoard :=
  set_selectElementIndex b (-1).

Definition initOriginPosition (b : PaintBoard) : PaintBoard :=
  set_originPosition b (mkPos 0 0).

(** The comparator of [sortOnLayer]: [findIndex] of the layer of [b] minus
    [findIndex] of the layer of [a] ([-1] when no layer of the stack has that
    id). *)
Definition findIndex (stack : list LayerItem) (l : option Z) : Z :=
  match list_find (fun item => Some (layer_id item) = l) stack with
  | Some (i, _) => Z.of_nat i
  | None => -1
  end.

Definition layerCompare (stack : list LayerItem) (a b : Element) : Z :=
  findIndex stack (ele_layer b) - findIndex stack (ele_layer a).

Definition sortOnLayer (b : PaintBoard) : PaintBoard :=
  set_history b (sort (layerCompare (layer_stack (layer b))) (history b)).

(** [recordCurrent(type)]: any [type] other than the two stroke kinds takes
    the [default] branch, as [TEXT] does here. *)
Definition recordCurrent (type : CANVAS_ELE_TYPE) (b : PaintBoard) : PaintBoard :=
  let ele :=
    match type with
    | FREE_LINE =>
        Some (newFreeLine (currentLineColor b) (currentLineWidth b)
                          (layer_current (layer b)))
    | CLEAN_LINE => Some (newCleanLine (cleanWidth b) (layer_current (layer b)))
    | TEXT => None
    end in
  let b := cancelSelectElement b in
  match ele with
  | Some e =>
      sortOnLayer (set_currentMoveEle (set_history b (add e (history b))) (Some e))
  | None => b
  end.

Definition board_undo (b : PaintBoard) : outcome :=
  let b := cancelSelectElement b in
  render (set_history b (undo (history b))).

Definition board_redo (b : PaintBoard) : outcome :=
  let b := cancelSelectElement b in
  render (set_history b (redo (history b))).

Definition board_clean (b : PaintBoard) : outcome :=
  let b := cancelSelectElement b in
  render (set_history b (clean (history b))).

Definition transformPosition (b : PaintBoard) (position : MousePosition)
    : MousePosition :=
  mkPos (pos_x position - canvasRect_left b - pos_x (originTranslate b))%Q
        (pos_y position - canvasRect_top b - pos_y (originTranslate b))%Q.

Definition deleteSelectElement (b : PaintBoard) : outcome :=
  if decide (selectElementIndex b <> -1) then
    let b := set_history b
               (deleteByIndex (Z.to_nat (selectElementIndex b)) (history b)) in
    let b := cancelSelectElement b in
    let b := set_mouseHoverElementIndex b (-1) in
    let b := set_resizeType b RESIZE_NULL in
    render b
  else Returned b.

Definition canvasMouseUp (b : PaintBoard) : PaintBoard :=
  let b :=
    match isCurrentChange b, tempCache b with
    | true, Some cache =>
        set_history b (pushStack (getCurrentStack (history b)) cache (history b))
    | _, _ => b
    end in
  let b := set_isCurrentChange b false in
  let b := set_tempCache b None in
  let b := set_resizeType b RESIZE_NULL in
  let b := set_currentMoveEle b None in
  initOriginPosition b.

(** [addTextElement(value, rect)]: the empty string is falsy. *)
Definition addTextElement (value : string) (rect : ElementRect) (b : PaintBoard)
    : outcome :=
  if negb (String.eqb value EmptyString) then
    let position := transformPosition b (mkPos (rect_x rect) (rect_y rect)) in
    let rect := mkRect (pos_x position) (pos_y position)
                       (rect_width rect) (rect_height rect) in
    let text := TextElement (Some (layer_current (layer b))) value rect in
    render (set_history b (add text (history b)))
  else Returned b.

(** One [undo()] followed by one [redo()] on the board. *)
Definition undo_then_redo (b : PaintBoard) : outcome :=
  and_then (board_undo b) board_redo.

(** ** Selection mode: hover scan, drag, click *)

(** An item of the layer stack with this id is shown. *)
Definition layerVisible (l : Layer) (id : Z) : Prop :=
  exists item, item ∈ layer_stack l /\ layer_id item = id /\ layer_show item = true.

(** The calls a drag makes on the selected element: one of the helpers of the
    element modules with its arguments, or assignments done in place, given
    by the element they leave. *)
Inductive DragAction : Type :=
| DoMoveFreeLine (ele : Element) (x y : Q)
| DoResizeFreeLine (ele : Element) (scaleX scaleY : jsnum) (rect : ElementRect)
                   (type : RESIZE_TYPE)
| DoResizeText (ele : Element) (width height : Q) (type : RESIZE_TYPE)
| DoAssign (ele : Element).

Section Selection.
Context `{Common} `{ElementOps}.

(** The ids of the layers that are shown, as the [reduce] collects them
    into a [Set]. *)
Definition showLayerIds (l : Layer) : gset Z :=
  list_to_set
    (fold_left (fun acc cur => if layer_show cur then acc ++ [layer_id cur] else acc)
               (layer_stack l) []).

(** [ele?.layer && showLayerIds.has(ele.layer)]: a missing layer and the
    id [0] are falsy. *)
Definition layerShown (ids : gset Z) (ele : Element) : bool :=
  match ele_layer ele with
  | Some l => negb (l =? 0) && bool_decide (l ∈ ids)
  | None => false
  end.

(** One round of the loop over a stroke, for [positions[i - 1]] and
    [positions[i]]. *)
Definition segmentHit (movePos prev cur : MousePosition) : bool :=
  let distance1 := getDistance movePos prev in
  let distance2 := getDistance movePos cur in
  let distance := getPositionToLineDistance movePos prev cur in
  (distance_lt distance1 10 || distance_lt distance2 10)
  && distance_lt distance 10.

(** The loop [for (i = 1; i < positions.length; i++)]: it has no [break],
    so the stroke is hit when some round hits. *)
Fixpoint strokeHit (movePos : MousePosition) (positions : list MousePosition)
    : bool :=
  match positions with
  | prev :: rest =>
      match rest with
      | cur :: _ => segmentHit movePos prev cur || strokeHit movePos rest
      | [] => false
      end
  | [] => false
  end.

(** The [switch (ele.type)] of the scan: whether the element matches. *)
Definition elementHit (movePos : MousePosition) (ele : Element) : bool :=
  match ele with
  | FreeLine _ _ _ positions _ => strokeHit movePos positions
  | TextElement _ _ rect => isInsideRect movePos rect
  | CleanLine _ _ _ _ => false
  end.

(** The callback given to [history.each]; its state is the local [done]
    and [this.mouseHoverElementIndex]. *)
Definition hoverCallback (ids : gset Z) (movePos : MousePosition)
    (st : bool * Z) (ele : Element) (eleIndex : nat) : bool * Z :=
  if layerShown ids ele then
    if fst st then st
    else if elementHit movePos ele then (true, Z.of_nat eleIndex)
    else st
  else st.

(** The first block of [moveSelectElement]. *)
Definition hoverScan (b : PaintBoard) (movePos : MousePosition) : PaintBoard :=
  if hasElements b then
    let ids := showLayerIds (layer b) in
    let st := each (hoverCallback ids movePos) LAST (history b)
                   (false, mouseHoverElementIndex b) in
    if fst st then set_mouseHoverElementIndex b (snd st)
    else set_mouseHoverElementIndex b (-1)
  else b.

(** What a drag does to the selected element, by element type and handle:
    the helper it calls and the arguments it computes for it. *)
Definition dragAction (type : RESIZE_TYPE) (disntanceX disntanceY : Q)
    (resizeElement : Element) : DragAction :=
  match resizeElement with
  | FreeLine _ _ _ _ rect =>
      match type with
      | RESIZE_BODY => DoMoveFreeLine resizeElement disntanceX disntanceY
      | BOTTOM_RIGHT =>
          DoResizeFreeLine resizeElement
            (jsdiv (rect_width rect + disntanceX) (rect_width rect))
            (jsdiv (rect_height rect + disntanceY) (rect_height rect))
            rect BOTTOM_RIGHT
      | BOTTOM_LEFT =>
          DoResizeFreeLine resizeElement
            (jsdiv (rect_width rect - disntanceX) (rect_width rect))
            (jsdiv (rect_height rect + disntanceY) (rect_height rect))
            rect BOTTOM_LEFT
      | TOP_LEFT =>
          DoResizeFreeLine resizeElement
            (jsdiv (rect_width rect - disntanceX) (rect_width rect))
            (jsdiv (rect_height rect - disntanceY) (rect_height rect))
            rect TOP_LEFT
      | TOP_RIGHT =>
          DoResizeFreeLine resizeElement
            (jsdiv (rect_width rect + disntanceX) (rect_width rect))
            (jsdiv (rect_height rect - disntanceY) (rect_height rect))
            rect TOP_RIGHT
      | RESIZE_NULL => DoAssign resizeElement
      end
  | TextElement l v rect =>
      match type with
      | RESIZE_BODY =>
          DoAssign
            (TextElement l v
               (mkRect (rect_x rect + disntanceX) (rect_y rect + disntanceY)
                       (rect_width rect) (rect_height rect)))
      | BOTTOM_RIGHT =>
          DoResizeText resizeElement
            (rect_width rect + disntanceX) (rect_height rect + disntanceY)
            BOTTOM_RIGHT
      | BOTTOM_LEFT =>
          DoResizeText resizeElement
            (rect_width rect - disntanceX) (rect_height rect + disntanceY)
            BOTTOM_LEFT
      | TOP_LEFT =>
          DoResizeText resizeElement
            (rect_width rect - disntanceX) (rect_height rect - disntanceY)
            TOP_LEFT
      | TOP_RIGHT =>
          DoResizeText resizeElement
            (rect_width rect + disntanceX) (rect_height rect - disntanceY)
            TOP_RIGHT
      | RESIZE_NULL => DoAssign resizeElement
      end
  | CleanLine _ _ _ _ => DoAssign resizeElement
  end.

(** The element as the helper leaves it. *)
Definition runAction (a : DragAction) : Element :=
  match a with
  | DoMoveFreeLine ele x y => moveFreeLine ele x y
  | DoResizeFreeLine ele scaleX scaleY rect type =>
      resizeFreeLine ele scaleX scaleY rect type
  | DoResizeText ele width height type => resizeTextElement ele width height type
  | DoAssign ele => ele
  end.

Definition dragElement (type : RESIZE_TYPE) (disntanceX disntanceY : Q)
    (resizeElement : Element) : Element :=
  runAction (dragAction type disntanceX disntanceY resizeElement).

(** The selected element lives in the live stack: writing to it writes
    [timeline[step][index]]. *)
Definition putSelectElement (index : Z) (e : Element) (h : History) : History :=
  mkHistory (alter (fun stack => <[Z.to_nat index := e]> stack) (step h) (timeline h))
            (step h).

Definition moveSelectElement (position : MousePosition) (b : PaintBoard)
    : outcome :=
  let movePos := transformPosition b position in
  let b := hoverScan b movePos in
  if decide (selectElementIndex b <> -1) then
    if decide (resizeType b <> RESIZE_NULL) then
      let b := set_isCurrentChange b true in
      match getSelectElement b (selectElementIndex b) with
      | None => Thrown b
      | Some resizeElement =>
          let disntanceX := (pos_x movePos - pos_x (resizeMousePos b))%Q in
          let disntanceY := (pos_y movePos - pos_y (resizeMousePos b))%Q in
          let e := dragElement (resizeType b) disntanceX disntanceY resizeElement in
          let b := set_history b
                     (putSelectElement (selectElementIndex b) e (history b)) in
          let b := set_resizeMousePos b movePos in
          render b
      end
    else
      match getSelectElement b (selectElementIndex b) with
      | None => Thrown b
      | Some _ => Returned b
      end
  else Returned b.

Definition clickSelectElement (position : MousePosition) (b : PaintBoard)
    : outcome :=
  let resizeMousePos := transformPosition b position in
  let o :=
    if decide (selectElementIndex b <> -1) then
      match getSelectElement b (selectElementIndex b) with
      | None => Thrown b
      | Some e => Returned (set_resizeType b (getResizeType resizeMousePos (ele_rect e)))
      end
    else Returned b in
  and_then o (fun b =>
    let b :=
      if decide (resizeType b = RESIZE_NULL) then
        if decide (mouseHoverElementIndex b <> -1)
        then set_selectElementIndex b (mouseHoverElementIndex b)
        else cancelSelectElement b
      else b in
    let b :=
      if decide (selectElementIndex b <> -1) then
        set_resizeMousePos
          (set_tempCache b (Some (getCurrentStack (history b))))
          resizeMousePos
      else b in
    render b).

(** The element is on a shown layer and the pointer is on it. *)
Definition candidate (ids : gset Z) (movePos : MousePosition) (ele : Element)
    : bool :=
  layerShown ids ele && elementHit movePos ele.

(** The scan over a stack, from the state [st]. *)
Definition scanStack (ids : gset Z) (movePos : MousePosition)
    (stack : list Element) (st : bool * Z) : bool * Z :=
  fold_left (fun s (v : Element * nat) => hoverCallback ids movePos s (fst v) (snd v))
            (reverse (imap (fun i e => (e, i)) stack)) st.

End Selection.

(** The position of the layer of an element in the layer stack. *)
Definition layerIndex (stack : list LayerItem) (e : Element) : Z :=
  findIndex stack (ele_layer e).

(** ** The helpers as the specification describes them *)

Definition Qsquare (a : Q) : Q := (a * a)%Q.

(** Modelled from the spec: [getDistance] of [./common], the Euclidean
    distance of two points. *)
Definition specGetDistance (a b : MousePosition) : Distance :=
  mkDistance (Qsquare (pos_x a - pos_x b) + Qsquare (pos_y a - pos_y b))%Q.

(** Modelled from the spec: [getPositionToLineDistance] of [./common], the
    perpendicular-or-endpoint distance of [p] to the segment from [a] to [b]:
    the distance to the foot of the perpendicular when it falls on the
    segment, else to the nearer endpoint. *)
Definition specGetPositionToLineDistance (p a b : MousePosition) : Distance :=
  let abx := (pos_x b - pos_x a)%Q in
  let aby := (pos_y b - pos_y a)%Q in
  let len2 := (Qsquare abx + Qsquare aby)%Q in
  let dot := ((pos_x p - pos_x a) * abx + (pos_y p - pos_y a) * aby)%Q in
  if Qle_bool dot 0 then specGetDistance p a
  else if Qle_bool len2 dot then specGetDistance p b
  else
    let cross := ((pos_x p - pos_x a) * aby - (pos_y p - pos_y a) * abx)%Q in
    mkDistance (Qsquare cross / len2)%Q.

(** Modelled from the spec: [isInsideRect] of [./common], containment of a
    point in a rectangle. *)
Definition specIsInsideRect (p : MousePosition) (r : ElementRect) : bool :=
  Qle_bool (rect_x r) (pos_x p) && Qle_bool (pos_x p) (rect_x r + rect_width r)
  && Qle_bool (rect_y r) (pos_y p) && Qle_bool (pos_y p) (rect_y r + rect_height r).

(** Modelled from the spec: [getResizeType] of [./common].  A corner handle
    is the square of half side [margin] around a corner of the rectangle (the
    spec gives no size for it); corners come before the body, and a point in
    neither has no handle. *)
Definition specGetResizeType (margin : Q) (p : MousePosition) (r : ElementRect)
    : RESIZE_TYPE :=
  let near (cx cy : Q) :=
    Qle_bool (cx - margin) (pos_x p) && Qle_bool (pos_x p) (cx + margin)
    && Qle_bool (cy - margin) (pos_y p) && Qle_bool (pos_y p) (cy + margin) in
  let left := rect_x r in
  let right := (rect_x r + rect_width r)%Q in
  let top := rect_y r in
  let bottom := (rect_y r + rect_height r)%Q in
  if near left top then TOP_LEFT
  else if near right top then TOP_RIGHT
  else if near left bottom then BOTTOM_LEFT
  else if near right bottom then BOTTOM_RIGHT
  else if specIsInsideRect p r then RESIZE_BODY
  else RESIZE_NULL.

Definition specCommon (margin : Q) : Common :=
  Build_Common specGetDistance specGetPositionToLineDistance specIsInsideRect
               (specGetResizeType margin).

(** Modelled from the spec: [moveFreeLine] of [./element/freeLine], every
    point and the bounding box shift by the same delta. *)
Definition specMoveFreeLine (ele : Element) (x y : Q) : Element :=
  match ele with
  | FreeLine c w l ps r =>
      FreeLine c w l
        (map (fun p => mkPos (pos_x p + x) (pos_y p + y)) ps)
        (mkRect (rect_x r + x) (rect_y r + y) (rect_width r) (rect_height r))
  | _ => ele
  end.

(** A coordinate rescaled about an anchor; the axis is skipped when the
    factor is not a finite number, which is the case of a zero original
    dimension. *)
Definition scaleAbout (anchor : Q) (scale : jsnum) (v : Q) : Q :=
  match scale with
  | Finite s => (anchor + (v - anchor) * s)%Q
  | _ => v
  end.

(** The corner that stays in place: the one opposite to the handle. *)
Definition anchorOf (rect : ElementRect) (type : RESIZE_TYPE) : MousePosition :=
  let left := rect_x rect in
  let right := (rect_x rect + rect_width rect)%Q in
  let top := rect_y rect in
  let bottom := (rect_y rect + rect_height rect)%Q in
  match type with
  | BOTTOM_RIGHT => mkPos left top
  | BOTTOM_LEFT => mkPos right top
  | TOP_LEFT => mkPos right bottom
  | TOP_RIGHT => mkPos left bottom
  | _ => mkPos left top
  end.

(** The interval from [a] to [b] as an origin and a length. *)
Definition spanOf (a b : Q) : Q * Q :=
  if Qle_bool a b then (a, (b - a)%Q) else (b, (a - b)%Q).

(** Modelled from the spec: [resizeFreeLine] of [./element/freeLine], every
    point is rescaled about the anchor corner by the two factors, and the
    bounding box with them. *)
Definition specResizeFreeLine (ele : Element) (scaleX scaleY : jsnum)
    (rect : ElementRect) (type : RESIZE_TYPE) : Element :=
  match ele, type with
  | _, RESIZE_NULL | _, RESIZE_BODY => ele
  | FreeLine c w l ps _, _ =>
      let anchor := anchorOf rect type in
      let sx := scaleAbout (pos_x anchor) scaleX in
      let sy := scaleAbout (pos_y anchor) scaleY in
      let h := spanOf (sx (rect_x rect)) (sx (rect_x rect + rect_width rect)%Q) in
      let v := spanOf (sy (rect_y rect)) (sy (rect_y rect + rect_height rect)%Q) in
      FreeLine c w l
        (map (fun p => mkPos (sx (pos_x p)) (sy (pos_y p))) ps)
        (mkRect (fst h) (fst v) (snd h) (snd v))
  | _, _ => ele
  end.

(** Modelled from the spec: [resizeTextElement] of [./element/text], the
    width and height are set to the given ones; [x] moves with the left
    handles and [y] with the top handles, so that the opposite corner stays. *)
Definition specResizeTextElement (ele : Element) (width height : Q)
    (type : RESIZE_TYPE) : Element :=
  match ele with
  | TextElement l v r =>
      let x :=
        match type with
        | TOP_LEFT | BOTTOM_LEFT => (rect_x r + (rect_width r - width))%Q
        | _ => rect_x r
        end in
      let y :=
        match type with
        | TOP_LEFT | TOP_RIGHT => (rect_y r + (rect_height r - height))%Q
        | _ => rect_y r
        end in
      TextElement l v (mkRect x y width height)
  | _ => ele
  end.

Definition specElementOps : ElementOps :=
  Build_ElementOps specMoveFreeLine specResizeFreeLine specResizeTextElement.

(** ** Sample boards *)

Definition twoLayers : Layer :=
  mkLayer [mkLayerItem 1 true; mkLayerItem 2 true] 1.

Definition upperLayerHidden : Layer :=
  mkLayer [mkLayerItem 1 true; mkLayerItem 2 false] 1.

Definition lowerText : Element := TextElement (Some 1) "a" (mkRect 0 0 100 100).
Definition upperText : Element := TextElement (Some 2) "b" (mkRect 50 50 100 100).
Definition eraser : Element :=
  CleanLine 4 (Some 1) [mkPos 0 0; mkPos 100 100] (mkRect 0 0 100 100).


Definition boardOf (l : Layer) (h : History) : PaintBoard :=
  mkBoard h (mkPos 0 0) (mkPos 0 0) 0 0 l None "#000000" 4 4 (-1) (-1)
          (mkPos 0 0) RESIZE_NULL None false.

Definition overlapBoard : PaintBoard :=
  boardOf twoLayers (newHistory [lowerText; upperText]).

Definition overlapBoardHidden : PaintBoard :=
  boardOf upperLayerHidden (newHistory [lowerText; upperText]).


(** ** More sample boards *)

(** Corner handles of half side 5. *)
Definition sampleCommon : Common := specCommon 5.

(** Two texts added one after the other to an empty board. *)
Definition editedBoard : PaintBoard :=
  boardOf twoLayers (run_edits [EditAdd lowerText; EditAdd upperText] (newHistory [])).

(** A canvas at [(10, 20)] of the page, panned by [(5, 7)]. *)
Definition pannedBoard : PaintBoard :=
  mkBoard (newHistory [lowerText]) (mkPos 0 0) (mkPos 5 7) 20 10 twoLayers None
          "#000000" 4 4 (-1) (-1) (mkPos 0 0) RESIZE_NULL None false.

Definition eraserBoard : PaintBoard :=
  boardOf twoLayers (newHistory [lowerText; eraser]).

(** ** Settings and panning *)

Definition set_originTranslate (b : PaintBoard) (v : MousePosition) : PaintBoard :=
  mkBoard (history b) (originPosition b) v (canvasRect_top b)
    (canvasRect_left b) (layer b) (currentMoveEle b) (currentLineColor b)
    (currentLineWidth b) (cleanWidth b) (mouseHoverElementIndex b)
    (selectElementIndex b) (resizeMousePos b) (resizeType b) (tempCache b)
    (isCurrentChange b).

Definition set_currentLineColor (b : PaintBoard) (v : string) : PaintBoard :=
  mkBoard (history b) (originPosition b) (originTranslate b) (canvasRect_top b)
    (canvasRect_left b) (layer b) (currentMoveEle b) v
    (currentLineWidth b) (cleanWidth b) (mouseHoverElementIndex b)
    (selectElementIndex b) (resizeMousePos b) (resizeType b) (tempCache b)
    (isCurrentChange b).

Definition set_currentLineWidth (b : PaintBoard) (v : Q) : PaintBoard :=
  mkBoard (history b) (originPosition b) (originTranslate b) (canvasRect_top b)
    (canvasRect_left b) (layer b) (currentMoveEle b) (currentLineColor b)
    v (cleanWidth b) (mouseHoverElementIndex b)
    (selectElementIndex b) (resizeMousePos b) (resizeType b) (tempCache b)
    (isCurrentChange b).

Definition set_cleanWidth (b : PaintBoard) (v : Q) : PaintBoard :=
  mkBoard (history b) (originPosition b) (originTranslate b) (canvasRect_top b)
    (canvasRect_left b) (layer b) (currentMoveEle b) (currentLineColor b)
    (currentLineWidth b) v (mouseHoverElementIndex b)
    (selectElementIndex b) (resizeMousePos b) (resizeType b) (tempCache b)
    (isCurrentChange b).

(** The truthiness of a finite number: every number but zero. *)
Definition truthy (q : Q) : bool := negb (Qeq_bool q 0).

(** [setLineWidth], [setLineColor], [setCleanWidth]: a falsy value (zero, the
    empty string) is ignored. *)
Definition setLineWidth (width : Q) (b : PaintBoard) : PaintBoard :=
  if truthy width then set_currentLineWidth b width else b.

Definition setLineColor (color : string) (b : PaintBoard) : PaintBoard :=
  if negb (String.eqb color EmptyString) then set_currentLineColor b color else b.

Definition setCleanWidth (width : Q) (b : PaintBoard) : PaintBoard :=
  if truthy width then set_cleanWidth b width else b.

(** The pointer position relative to the canvas. *)
Definition canvasPosition (b : PaintBoard) (position : MousePosition)
    : MousePosition :=
  mkPos (pos_x position - canvasRect_left b)%Q (pos_y position - canvasRect_top b)%Q.

(** [dragCanvas]: the pan offset moves by the displacement since the
    position recorded last, when both coordinates of that position are
    truthy; the new position is recorded once [render] has returned. *)
Definition dragCanvas (position : MousePosition) (b : PaintBoard) : outcome :=
  let mousePosition := canvasPosition b position in
  let o :=
    if truthy (pos_x (originPosition b)) && truthy (pos_y (originPosition b)) then
      let translteX := (pos_x mousePosition - pos_x (originPosition b))%Q in
      let translteY := (pos_y mousePosition - pos_y (originPosition b))%Q in
      render (set_originTranslate b
                (mkPos (translteX + pos_x (originTranslate b))
                       (translteY + pos_y (originTranslate b))))
    else Returned b in
  and_then o (fun b => Returned (set_originPosition b mousePosition)).

(** A run of [dragCanvas] events; it stops at the first that throws. *)
Fixpoint dragAll (positions : list MousePosition) (b : PaintBoard) : outcome :=
  match positions with
  | [] => Returned b
  | p :: rest => and_then (dragCanvas p b) (dragAll rest)
  end.

(** Both coordinates of the position relative to the canvas are truthy. *)
Definition offEdge (b : PaintBoard) (p : MousePosition) : Prop :=
  ~ (pos_x p - canvasRect_left b == 0)%Q /\ ~ (pos_y p - canvasRect_top b == 0)%Q.

Section Sessions.
Context `{Common} `{ElementOps}.

(** A run of [moveSelectElement] events; it stops at the first that throws. *)
Fixpoint moveAll (positions : list MousePosition) (b : PaintBoard) : outcome :=
  match positions with
  | [] => Returned b
  | p :: rest => and_then (moveSelectElement p b) (moveAll rest)
  end.

End Sessions.

(** The live stack is in the order [sortOnLayer] gives: no element is on a
    layer that comes earlier in the layer stack than the layer of an element
    after it. *)
Definition layerSorted (ls : list LayerItem) (stack : list Element) : Prop :=
  StronglySorted (fun x y => layerIndex ls y <= layerIndex ls x) stack.

(** A board emptied while the pointer was on the upper text. *)
Definition clearedBoard : PaintBoard :=
  board_of (board_clean
              (board_of (@moveSelectElement sampleCommon specElementOps (mkPos 60 60)
                           overlapBoard))).

(** The lower text selected and grabbed by its body at [(20, 20)]. *)
Definition textDragBoard : PaintBoard :=
  set_tempCache
    (set_resizeMousePos
       (set_resizeType
          (set_selectElementIndex overlapBoard 0)
          RESIZE_BODY)
       (mkPos 20 20))
    (Some [lowerText; upperText]).


(** [pannedBoard] in the middle of a pan, the pointer recorded at
    [(100, 200)] of the canvas. *)
Definition panningBoard : PaintBoard :=
  set_originPosition pannedBoard (mkPos 100 200).

(** The lower of the two overlapping texts selected, no handle held. *)
Definition selectedBoard : PaintBoard := set_selectElementIndex overlapBoard 0.

(** A layer stack whose only layer has the id [0] and is shown. *)
Definition zeroLayer : Layer := mkLayer [mkLayerItem 0 true] 0.

(** The two texts in the order of [sortOnLayer], the second layer current. *)
Definition secondLayerBoard : PaintBoard :=
  boardOf (mkLayer [mkLayerItem 1 true; mkLayerItem 2 true] 2)
          (newHistory [upperText; lowerText]).


(** A whole number of pixels of magnitude at most [2 ^ 50].  On such
    numbers every addition and subtraction the board makes is exact in the
    double arithmetic of the code, as it is here. *)
Definition pixel (q : Q) : Prop :=
  exists n : Z, (q == inject_Z n)%Q /\ Z.abs n <= 2 ^ 50.

Definition pixelPos (p : MousePosition) : Prop :=
  pixel (pos_x p) /\ pixel (pos_y p).

(** The body drag of [textDragBoard] taken to [(30, 40)] and back to
    [(20, 20)], where it started. *)
Definition textDraggedBackBoard : PaintBoard :=
  board_of (@moveAll sampleCommon specElementOps [mkPos 30 40; mkPos 20 20]
              textDragBoard).

(** A slanted stroke, selected and grabbed by its bottom-right handle at
    [(30, 50)]. *)
Definition slantedLine : Element :=
  FreeLine "#000000" 4 (Some 1) [mkPos 10 10; mkPos 30 50] (mkRect 10 10 20 40).

Definition collapseBoard : PaintBoard :=
  set_tempCache
    (set_resizeMousePos
       (set_resizeType
          (set_selectElementIndex (boardOf twoLayers (newHistory [slantedLine])) 0)
          BOTTOM_RIGHT)
       (mkPos 30 50))
    (Some [slantedLine]).

(** The handle taken to [(10, 50)], where the width of the stroke is zero,
    and back to [(30, 50)], where it started. *)
Definition collapsedBackBoard : PaintBoard :=
  board_of (@moveAll sampleCommon specElementOps [mkPos 10 50; mkPos 30 50]
              collapseBoard).




(** * Properties of the history timeline *)

Lemma history_eta (h : History) : mkHistory (timeline h) (step h) = h.
Proof. by destruct h. Qed.

Lemma at_tail_new (stack : list Element) : at_tail (newHistory stack).
Proof. reflexivity. Qed.

Lemma at_tail_add (e : Element) (h : History) : at_tail (add e h).
Proof. unfold at_tail, add; simpl. rewrite length_app; simpl. lia. Qed.

Lemma at_tail_deleteByIndex (i : nat) (h : History) : at_tail (deleteByIndex i h).
Proof. unfold at_tail, deleteByIndex; simpl. rewrite length_app; simpl. lia. Qed.

Lemma at_tail_clean (h : History) : at_tail (clean h).
Proof. unfold at_tail, clean; simpl. rewrite length_app; simpl. lia. Qed.

Lemma at_tail_pushStack (data prevData : list Element) (h : History) :
  at_tail h -> at_tail (pushStack data prevData h).
Proof.
  unfold at_tail, pushStack. intros Hh.
  destruct (stack_eqb prevData data); [done|]. simpl.
  rewrite length_app, length_take. simpl. lia.
Qed.

Lemma sort_step (cmp : Element -> Element -> Z) (h : History) :
  step (sort cmp h) = step h.
Proof. unfold sort. by destruct (timeline h !! step h). Qed.

Lemma sort_length (cmp : Element -> Element -> Z) (h : History) :
  length (timeline (sort cmp h)) = length (timeline h).
Proof.
  unfold sort. destruct (timeline h !! step h); [|done].
  simpl. by rewrite length_insert.
Qed.

Lemma at_tail_sort (cmp : Element -> Element -> Z) (h : History) :
  at_tail h -> at_tail (sort cmp h).
Proof. unfold at_tail. by rewrite sort_step, sort_length. Qed.

Lemma at_tail_run (edits : list Edit) (h : History) :
  at_tail h -> at_tail (run_edits edits h).
Proof.
  revert h. induction edits as [|ed edits IH]; intros h Hh; [done|].
  simpl. apply IH. destruct ed; simpl;
    auto using at_tail_add, at_tail_deleteByIndex, at_tail_clean,
               at_tail_pushStack, at_tail_sort.
Qed.

Lemma undo_at_start (h : History) : step h = O -> undo h = h.
Proof. unfold undo. by intros ->. Qed.

Lemma redo_at_tail (h : History) : at_tail h -> redo h = h.
Proof. unfold at_tail, redo. intros Hh. case_decide; [lia|done]. Qed.

Lemma redo_undo (h : History) : at_tail h -> redo (undo h) = h.
Proof.
  unfold at_tail. intros Hh. unfold undo.
  destruct (step h) as [|n] eqn:Hs.
  - apply redo_at_tail. unfold at_tail. by rewrite Hs.
  - unfold redo; simpl. case_decide; [|lia].
    rewrite <- Hs. apply history_eta.
Qed.

(** * Properties of the board operations that only touch the selection *)

Lemma render_board (b : PaintBoard) : board_of (render b) = b.
Proof.
  unfold render. destruct (hasElements b && negb (selectElementIndex b =? -1)); [|done].
  by destruct (getSelectElement b (selectElementIndex b)).
Qed.

Lemma render_unselected (b : PaintBoard) :
  selectElementIndex b = -1 -> render b = Returned b.
Proof.
  unfold render. intros ->. simpl. by rewrite andb_false_r.
Qed.

Lemma board_undo_eq (b : PaintBoard) :
  board_undo b = Returned (set_history (cancelSelectElement b) (undo (history b))).
Proof. unfold board_undo. by rewrite render_unselected. Qed.

Lemma board_redo_eq (b : PaintBoard) :
  board_redo b = Returned (set_history (cancelSelectElement b) (redo (history b))).
Proof. unfold board_redo. by rewrite render_unselected. Qed.

Lemma board_clean_eq (b : PaintBoard) :
  board_clean b = Returned (set_history (cancelSelectElement b) (clean (history b))).
Proof. unfold board_clean. by rewrite render_unselected. Qed.

Lemma recordCurrent_history (type : CANVAS_ELE_TYPE) (b : PaintBoard) :
  type <> TEXT ->
  exists e, history (recordCurrent type b)
            = sort (layerCompare (layer_stack (layer b))) (add e (history b)).
Proof.
  intros Ht. destruct type; [| |done]; eexists; reflexivity.
Qed.

Lemma addTextElement_history (value : string) (rect : ElementRect) (b : PaintBoard) :
  value <> EmptyString ->
  exists e, history (board_of (addTextElement value rect b)) = add e (history b).
Proof.
  intros Hv. unfold addTextElement.
  destruct (String.eqb_spec value EmptyString) as [->|_]; [done|].
  simpl. rewrite render_board. eexists; reflexivity.
Qed.

Lemma getCurrentStack_add (e : Element) (h : History) :
  getCurrentStack (add e h) = getCurrentStack h ++ [e].
Proof.
  unfold getCurrentStack at 1. unfold add; simpl.
  by rewrite list_lookup_middle.
Qed.

Lemma sort_at_tail_redo (cmp : Element -> Element -> Z) (e : Element) (h : History) :
  redo (sort cmp (add e h)) = sort cmp (add e h).
Proof. apply redo_at_tail, at_tail_sort, at_tail_add. Qed.

(** C2 (redo invalidation).  After [undo] and then [add], the cursor is on
    the last entry of the timeline (the entries that were beyond the cursor
    are gone) and [redo] changes nothing; the same holds on the board when the
    element is added by [recordCurrent] (a stroke or an eraser stroke) or by
    [addTextElement] (a non-empty text): [redo] returns and leaves the
    timeline, hence the live stack, as it was. *)
Theorem redo_after_undo_add_is_noop :
  (forall (h : History) (e : Element),
      at_tail (add e (undo h))
      /\ redo (add e (undo h)) = add e (undo h))
  /\ (forall (b : PaintBoard) (type : CANVAS_ELE_TYPE),
        type <> TEXT ->
        let b1 := recordCurrent type (board_of (board_undo b)) in
        returns (board_redo b1) = true
        /\ history (board_of (board_redo b1)) = history b1
        /\ getCurrentStack (history (board_of (board_redo b1)))
           = getCurrentStack (history b1))
  /\ (forall (b : PaintBoard) (value : string) (rect : ElementRect),
        value <> EmptyString ->
        let b1 := board_of (addTextElement value rect (board_of (board_undo b))) in
        returns (board_redo b1) = true
        /\ history (board_of (board_redo b1)) = history b1
        /\ getCurrentStack (history (board_of (board_redo b1)))
           = getCurrentStack (history b1)).
Proof.
  split; [|split].
  - intros h e. split; [apply at_tail_add|apply redo_at_tail, at_tail_add].
  - intros b type Ht b1.
    destruct (recordCurrent_history type (board_of (board_undo b)) Ht) as [e He].
    fold b1 in He. rewrite board_redo_eq. simpl.
    rewrite He, sort_at_tail_redo. auto.
  - intros b value rect Hv b1.
    destruct (addTextElement_history value rect (board_of (board_undo b)) Hv)
      as [e He].
    fold b1 in He. rewrite board_redo_eq. simpl.
    rewrite He, (redo_at_tail _ (at_tail_add _ _)). auto.
Qed.

Lemma undo_then_redo_eq (b : PaintBoard) :
  at_tail (history b) ->
  undo_then_redo b = Returned (cancelSelectElement b).
Proof.
  intros Hb. unfold undo_then_redo. rewrite board_undo_eq. simpl.
  rewrite board_redo_eq. simpl. rewrite redo_undo by done.
  by destruct b.
Qed.

Lemma undo_then_redo_iter (N : nat) (b : PaintBoard) :
  at_tail (history b) ->
  exists b',
    Nat.iter N (fun o => and_then o undo_then_redo) (Returned b) = Returned b'
    /\ history b' = history b.
Proof.
  intros Hb. induction N as [|N [b' [HN Hh]]]; [by exists b|].
  exists (cancelSelectElement b'). simpl. rewrite HN. simpl.
  rewrite undo_then_redo_eq by (by rewrite Hh). by rewrite <- Hh.
Qed.

(** C3 (undo/redo inverse law).  On a board whose timeline was built by any
    sequence of committed edits, [undo()] then [redo()], repeated [N] times,
    returns and gives back the very same timeline and cursor, so the same
    live stack; and at a boundary of the timeline [undo()] (cursor on the
    first entry) and [redo()] (cursor on the last) return without changing
    the history. *)
Theorem undo_redo_inverse :
  forall (stack0 : list Element) (edits : list Edit) (N : nat) (b : PaintBoard),
    history b = run_edits edits (newHistory stack0) ->
    (exists b',
        Nat.iter N (fun o => and_then o undo_then_redo) (Returned b) = Returned b'
        /\ history b' = history b
        /\ getCurrentStack (history b') = getCurrentStack (history b))
    /\ (forall b0 : PaintBoard,
          step (history b0) = O ->
          returns (board_undo b0) = true
          /\ history (board_of (board_undo b0)) = history b0)
    /\ (forall b0 : PaintBoard,
          S (step (history b0)) = length (timeline (history b0)) ->
          returns (board_redo b0) = true
          /\ history (board_of (board_redo b0)) = history b0).
Proof.
  intros stack0 edits N b Hb. split; [|split].
  - destruct (undo_then_redo_iter N b) as [b' [HN Hh]].
    + rewrite Hb. apply at_tail_run, at_tail_new.
    + exists b'. by rewrite Hh.
  - intros b0 H0. rewrite board_undo_eq. simpl. by rewrite undo_at_start.
  - intros b0 H0. rewrite board_redo_eq. simpl. by rewrite redo_at_tail.
Qed.

(** C10 (no selection survives).  [undo], [redo], [clean],
    [deleteSelectElement] and [recordCurrent] all return, and leave
    [selectElementIndex] at [-1]. *)
Theorem selection_cleared :
  forall b : PaintBoard,
    (returns (board_undo b) = true
     /\ selectElementIndex (board_of (board_undo b)) = -1)
    /\ (returns (board_redo b) = true
        /\ selectElementIndex (board_of (board_redo b)) = -1)
    /\ (returns (board_clean b) = true
        /\ selectElementIndex (board_of (board_clean b)) = -1)
    /\ (returns (deleteSelectElement b) = true
        /\ selectElementIndex (board_of (deleteSelectElement b)) = -1)
    /\ (forall type : CANVAS_ELE_TYPE,
          selectElementIndex (recordCurrent type b) = -1).
Proof.
  intros b.
  rewrite board_undo_eq, board_redo_eq, board_clean_eq. simpl.
  repeat split.
  - unfold deleteSelectElement. case_decide; [|done].
    by rewrite render_unselected.
  - unfold deleteSelectElement. case_decide as Hsel.
    + by rewrite render_board.
    + simpl. destruct (decide (selectElementIndex b = -1)); [done|].
      by destruct Hsel.
  - intros type. by destruct type.
Qed.

(** C8 (adding text).  With the empty string [addTextElement] returns the
    board untouched.  With any other value the board differs only by its
    history, to which exactly one element was added: a text box on the
    current layer, holding the value, whose rectangle is [rect] moved to board
    coordinates (the canvas origin and the pan offset subtracted); it is the
    last element of the new live stack, after all the former ones. *)
Theorem addTextElement_spec :
  (forall (rect : ElementRect) (b : PaintBoard),
      addTextElement EmptyString rect b = Returned b)
  /\ (forall (value : string) (rect : ElementRect) (b : PaintBoard),
        value <> EmptyString ->
        let text :=
          TextElement (Some (layer_current (layer b))) value
            (mkRect (rect_x rect - canvasRect_left b - pos_x (originTranslate b))%Q
                    (rect_y rect - canvasRect_top b - pos_y (originTranslate b))%Q
                    (rect_width rect) (rect_height rect)) in
        let b' := board_of (addTextElement value rect b) in
        b' = set_history b (add text (history b))
        /\ getCurrentStack (history b') = getCurrentStack (history b) ++ [text]
        /\ length (getCurrentStack (history b'))
           = S (length (getCurrentStack (history b)))).
Proof.
  split; [done|].
  intros value rect b Hv text b'.
  assert (Hb' : b' = set_history b (add text (history b))).
  { unfold b', addTextElement.
    destruct (String.eqb_spec value EmptyString) as [->|_]; [done|].
    simpl. by rewrite render_board. }
  rewrite Hb'. simpl. rewrite getCurrentStack_add, length_app. simpl.
  repeat split. lia.
Qed.

Section DragCommit.
Context `{Common}.

Lemma clickSelectElement_keeps (position : MousePosition) (b : PaintBoard) :
  history (board_of (clickSelectElement position b)) = history b
  /\ isCurrentChange (board_of (clickSelectElement position b))
     = isCurrentChange b.
Proof.
  unfold clickSelectElement.
  destruct (decide (selectElementIndex b <> -1)) as [Hs|Hs];
    [destruct (getSelectElement b (selectElementIndex b)); [|done]|];
    cbn [and_then]; rewrite render_board;
    repeat (case_decide; simpl); done.
Qed.

(** C1, as amended (no-op drag).  When the live stack at pointer-up is
    structurally equal to the copy taken at pointer-down, [canvasMouseUp]
    leaves the timeline and its cursor exactly as they are.  In particular a
    pointer-down followed at once by a pointer-up (no move in between)
    pushes nothing.  A pointer that moved and came back need not have put the
    stack back as it was: then the premise fails and an entry is pushed. *)
Theorem noop_drag_pushes_nothing :
  (forall b : PaintBoard,
      (forall cache : list Element,
          tempCache b = Some cache ->
          stack_eqb cache (getCurrentStack (history b)) = true) ->
      history (canvasMouseUp b) = history b)
  /\ (forall (position : MousePosition) (b : PaintBoard),
        isCurrentChange b = false ->
        history (canvasMouseUp (board_of (clickSelectElement position b)))
        = history b).
Proof.
  split.
  - intros b Heq. unfold canvasMouseUp.
    destruct (isCurrentChange b), (tempCache b) as [cache|]; simpl; try done.
    unfold pushStack. by rewrite (Heq cache eq_refl).
  - intros position b Hb.
    destruct (clickSelectElement_keeps position b) as [Hh Hc].
    rewrite Hb in Hc. unfold canvasMouseUp. rewrite Hc. simpl. done.
Qed.

End DragCommit.

(** * Properties of the hover scan *)

Lemma StronglySorted_lookup {A : Type} (R : A -> A -> Prop) (l : list A) :
  StronglySorted R l ->
  forall (i j : nat) (x y : A),
    (i < j)%nat -> l !! i = Some x -> l !! j = Some y -> R x y.
Proof.
  induction 1 as [|a l Hl IH Ha]; intros i j x y Hlt Hi Hj.
  - by rewrite lookup_nil in Hi.
  - destruct j as [|j]; [lia|]. destruct i as [|i]; simpl in Hi, Hj.
    + inversion Hi; subst x. eapply Forall_lookup_1; eauto.
    + eapply (IH i j); eauto. lia.
Qed.

Section Scan.
Context `{Common}.

Lemma shown_ids_fold (stack : list LayerItem) (acc : list Z) (id : Z) :
  id ∈ fold_left (fun acc cur => if layer_show cur then acc ++ [layer_id cur] else acc)
                 stack acc
  <-> id ∈ acc
      \/ exists item, item ∈ stack /\ layer_id item = id /\ layer_show item = true.
Proof.
  revert acc. induction stack as [|cur stack IH]; intros acc; simpl.
  - split; [auto|]. intros [Hin|(item & Hin & _)]; [done|]. by apply elem_of_nil in Hin.
  - rewrite IH. split.
    + intros [Hin|(item & Hin & Hid & Hshow)].
      * destruct (layer_show cur) eqn:Hc; [|auto].
        apply elem_of_app in Hin as [Hin|Hin]; [auto|].
        apply list_elem_of_singleton in Hin. right. exists cur.
        split; [apply list_elem_of_here|auto].
      * right. exists item. split; [by apply list_elem_of_further|auto].
    + intros [Hin|(item & Hin & Hid & Hshow)].
      * left. destruct (layer_show cur); [|done]. apply elem_of_app. auto.
      * apply elem_of_cons in Hin as [->|Hin].
        -- left. rewrite Hshow. apply elem_of_app. right.
           apply list_elem_of_singleton. done.
        -- right. exists item. auto.
Qed.

Lemma showLayerIds_spec (l : Layer) (id : Z) :
  id ∈ showLayerIds l <-> layerVisible l id.
Proof.
  unfold showLayerIds, layerVisible. rewrite elem_of_list_to_set, shown_ids_fold.
  split; [|auto]. intros [Hin|Hex]; [|done]. by apply elem_of_nil in Hin.
Qed.

Lemma layerShown_visible (l : Layer) (ele : Element) :
  layerShown (showLayerIds l) ele = true ->
  exists id, ele_layer ele = Some id /\ layerVisible l id.
Proof.
  unfold layerShown. destruct (ele_layer ele) as [id|]; [|done].
  intros [_ Hin]%andb_prop. exists id. split; [done|].
  apply showLayerIds_spec. by apply bool_decide_eq_true in Hin.
Qed.

Lemma scanStack_snoc ids movePos (stack : list Element) (x : Element) st :
  scanStack ids movePos (stack ++ [x]) st
  = scanStack ids movePos stack (hoverCallback ids movePos st x (length stack)).
Proof.
  unfold scanStack. rewrite imap_app, reverse_app. simpl.
  by rewrite Nat.add_0_r.
Qed.

Lemma scanStack_done ids movePos (stack : list Element) (hover : Z) :
  scanStack ids movePos stack (true, hover) = (true, hover).
Proof.
  induction stack as [|x stack IH] using rev_ind; [done|].
  rewrite scanStack_snoc. unfold hoverCallback at 1. simpl.
  by destruct (layerShown ids x).
Qed.

(** The scan finds the candidate of greatest index, or none and keeps the
    state it started from. *)
Lemma scanStack_spec ids movePos (stack : list Element) (hover0 : Z) :
  (exists (i : nat) (e : Element),
      scanStack ids movePos stack (false, hover0) = (true, Z.of_nat i)
      /\ stack !! i = Some e
      /\ candidate ids movePos e = true
      /\ forall (j : nat) (e' : Element),
           (i < j)%nat -> stack !! j = Some e' -> candidate ids movePos e' = false)
  \/ (scanStack ids movePos stack (false, hover0) = (false, hover0)
      /\ forall (j : nat) (e' : Element),
           stack !! j = Some e' -> candidate ids movePos e' = false).
Proof.
  induction stack as [|x stack IH] using rev_ind.
  - right. split; [done|]. intros j e' Hj. by rewrite lookup_nil in Hj.
  - rewrite scanStack_snoc.
    destruct (candidate ids movePos x) eqn:Hx.
    + left. exists (length stack), x.
      unfold candidate in Hx. apply andb_prop in Hx as [Hs Hh].
      unfold hoverCallback. rewrite Hs, Hh. simpl.
      rewrite scanStack_done. split; [done|]. split.
      { by rewrite list_lookup_middle. }
      split; [unfold candidate; by rewrite Hs, Hh|].
      intros j e' Hlt Hj. apply lookup_lt_Some in Hj.
      rewrite length_app in Hj. simpl in Hj. lia.
    + assert (Hcb : hoverCallback ids movePos (false, hover0) x (length stack)
                    = (false, hover0)).
      { unfold hoverCallback. unfold candidate in Hx.
        destruct (layerShown ids x); [|done]. simpl in *. by rewrite Hx. }
      rewrite Hcb.
      destruct IH as [(i & e & Hscan & Hi & Hc & Hab)|[Hscan Hno]].
      * left. exists i, e. split; [done|].
        split; [by apply lookup_app_l_Some|]. split; [done|].
        intros j e' Hlt Hj.
        apply lookup_app_Some in Hj as [Hj|[Hlen Hj]]; [by eapply Hab|].
        destruct (j - length stack)%nat; simpl in Hj; [|done].
        by inversion Hj; subst.
      * right. split; [done|]. intros j e' Hj.
        apply lookup_app_Some in Hj as [Hj|[Hlen Hj]]; [by eapply Hno|].
        destruct (j - length stack)%nat; simpl in Hj; [|done].
        by inversion Hj; subst.
Qed.

Lemma hoverScan_index (b : PaintBoard) (movePos : MousePosition) :
  hasElements b = true ->
  mouseHoverElementIndex (hoverScan b movePos)
  = let st := scanStack (showLayerIds (layer b)) movePos
                        (getCurrentStack (history b))
                        (false, mouseHoverElementIndex b) in
    if fst st then snd st else -1.
Proof.
  intros Hb. unfold hoverScan. rewrite Hb.
  change (each (hoverCallback (showLayerIds (layer b)) movePos) LAST (history b)
               (false, mouseHoverElementIndex b))
    with (scanStack (showLayerIds (layer b)) movePos (getCurrentStack (history b))
                    (false, mouseHoverElementIndex b)).
  simpl. by destruct (fst _).
Qed.

End Scan.

Section ScanClaims.
Context `{Common} `{ElementOps}.

Lemma hoverScan_is_set (b : PaintBoard) (movePos : MousePosition) :
  exists v : Z, hoverScan b movePos = set_mouseHoverElementIndex b v.
Proof.
  unfold hoverScan. destruct (hasElements b).
  - destruct (fst _); eauto.
  - exists (mouseHoverElementIndex b). by destruct b.
Qed.

Lemma hoverScan_cases (b : PaintBoard) (movePos : MousePosition) :
  hasElements b = true ->
  let stack := getCurrentStack (history b) in
  let ids := showLayerIds (layer b) in
  let hover := mouseHoverElementIndex (hoverScan b movePos) in
  (exists (i : nat) (e : Element),
      hover = Z.of_nat i
      /\ stack !! i = Some e
      /\ candidate ids movePos e = true
      /\ forall (j : nat) (e' : Element),
           (i < j)%nat -> stack !! j = Some e' -> candidate ids movePos e' = false)
  \/ (hover = -1
      /\ forall (j : nat) (e' : Element),
           stack !! j = Some e' -> candidate ids movePos e' = false).
Proof.
  intros Hb stack ids hover. unfold hover. rewrite hoverScan_index by done.
  destruct (scanStack_spec ids movePos stack (mouseHoverElementIndex b))
    as [(i & e & Hscan & Hrest)|[Hscan Hno]]; fold stack ids; rewrite Hscan; simpl.
  - left. by exists i, e.
  - right. done.
Qed.

(** C4, as amended (hit-test occlusion).  On a board with elements, the
    hover scan visits the live stack back to front (the reverse of the paint
    order), never resolves to an element whose layer is hidden or not in the
    layer stack, and resolves to the first candidate it meets, that is the
    shown element under the pointer that is painted last, or to [-1] when
    there is none.  Hence, of two overlapping elements, the one later in the
    live stack is hovered when its layer is shown, the earlier one when only
    its own layer is shown, and none when both layers are hidden.  When the
    live stack is in the order of [sortOnLayer], the hovered element is on
    the layer that comes first in the layer stack among the layers of the
    candidates. *)
Theorem hover_scan_topmost_first :
  forall (b : PaintBoard) (movePos : MousePosition),
    hasElements b = true ->
    let stack := getCurrentStack (history b) in
    let ids := showLayerIds (layer b) in
    let hover := mouseHoverElementIndex (hoverScan b movePos) in
    each_visits LAST (history b) = reverse (each_visits FIRST (history b))
    /\ (forall (i : nat) (e : Element),
          stack !! i = Some e ->
          (forall id : Z, ele_layer e = Some id -> ~ layerVisible (layer b) id) ->
          hover <> Z.of_nat i)
    /\ (forall (i : nat) (e : Element),
          stack !! i = Some e ->
          candidate ids movePos e = true ->
          (forall (j : nat) (e' : Element),
              (i < j)%nat -> stack !! j = Some e' ->
              candidate ids movePos e' = false) ->
          hover = Z.of_nat i)
    /\ ((forall (j : nat) (e' : Element),
            stack !! j = Some e' -> candidate ids movePos e' = false) ->
        hover = -1)
    /\ (forall lower upper : Element,
          stack = [lower; upper] ->
          elementHit movePos lower = true ->
          elementHit movePos upper = true ->
          hover = if layerShown ids upper then 1
                  else if layerShown ids lower then 0
                  else -1)
    /\ (layerSorted (layer_stack (layer b)) stack ->
        forall (i j : nat) (e e' : Element),
          hover = Z.of_nat i ->
          stack !! i = Some e ->
          stack !! j = Some e' ->
          candidate ids movePos e' = true ->
          layerIndex (layer_stack (layer b)) e
          <= layerIndex (layer_stack (layer b)) e').
Proof.
  intros b movePos Hb stack ids hover.
  pose proof (hoverScan_cases b movePos Hb) as Hcases.
  fold stack ids hover in Hcases.
  assert (Hfirst : forall (i : nat) (e : Element),
             stack !! i = Some e ->
             candidate ids movePos e = true ->
             (forall (j : nat) (e' : Element),
                 (i < j)%nat -> stack !! j = Some e' ->
                 candidate ids movePos e' = false) ->
             hover = Z.of_nat i).
  { intros i e Hi Hc Hab.
    destruct Hcases as [(i' & e' & Hh & Hi' & Hc' & Hab')|[_ Hno]].
    - destruct (Nat.lt_trichotomy i i') as [Hlt|[->|Hgt]]; [|done|].
      + rewrite (Hab i' e' Hlt Hi') in Hc'. done.
      + rewrite (Hab' i e Hgt Hi) in Hc. done.
    - rewrite (Hno i e Hi) in Hc. done. }
  assert (Hnone : (forall (j : nat) (e' : Element),
                      stack !! j = Some e' -> candidate ids movePos e' = false) ->
                  hover = -1).
  { intros Hno. destruct Hcases as [(i' & e' & _ & Hi' & Hc' & _)|[Hh _]]; [|done].
    rewrite (Hno i' e' Hi') in Hc'. done. }
  split; [done|]. split; [|split; [done|split; [done|split]]].
  - intros i e Hi Hhidden Hh.
    destruct Hcases as [(i' & e' & Hh' & Hi' & Hc' & _)|[Hh' _]]; [|lia].
    assert (i' = i) as -> by lia.
    rewrite Hi in Hi'. inversion Hi'; subst e'.
    apply andb_prop in Hc' as [Hs _].
    destruct (layerShown_visible _ _ Hs) as (id & Hid & Hvis).
    by apply (Hhidden id).
  - intros lower upper Hst Hl Hu. unfold candidate in Hfirst, Hnone.
    rewrite Hst in Hfirst, Hnone.
    destruct (layerShown ids upper) eqn:Hsu.
    + apply (Hfirst 1%nat upper); [done|by rewrite Hsu, Hu|].
      intros [|[|[|j]]] e' Hlt Hj; simpl in Hj; try lia; done.
    + destruct (layerShown ids lower) eqn:Hsl.
      * apply (Hfirst 0%nat lower); [done|by rewrite Hsl, Hl|].
        intros [|[|[|j]]] e' Hlt Hj; simpl in Hj; try lia; try done.
        inversion Hj; subst e'. by rewrite Hsu.
      * apply Hnone. intros [|[|[|j]]] e' Hj; simpl in Hj; try done;
          inversion Hj; subst e'; [by rewrite Hsl|by rewrite Hsu].
  - intros Hsorted i j e e' Hh Hi Hj Hc.
    destruct Hcases as [(i' & e0 & Hh' & Hi' & _ & Hab)|[Hh' _]]; [|lia].
    assert (i' = i) as -> by lia.
    destruct (Nat.lt_trichotomy j i) as [Hlt|[->|Hgt]].
    + apply (StronglySorted_lookup _ _ Hsorted j i e' e Hlt Hj Hi).
    + rewrite Hi in Hj. inversion Hj. lia.
    + rewrite (Hab j e' Hgt Hj) in Hc. done.
Qed.


Lemma hoverScan_stack (b : PaintBoard) (movePos : MousePosition) :
  history (hoverScan b movePos) = history b.
Proof.
  unfold hoverScan. destruct (hasElements b); [|done]. by destruct (fst _).
Qed.





Lemma strokeHit_iff (movePos : MousePosition) (positions : list MousePosition) :
  strokeHit movePos positions = true
  <-> exists (i : nat) (prev cur : MousePosition),
        positions !! i = Some prev
        /\ positions !! S i = Some cur
        /\ segmentHit movePos prev cur = true.
Proof.
  induction positions as [|prev rest IH]; simpl.
  - split; [done|]. intros (i & p & c & Hp & _). by rewrite lookup_nil in Hp.
  - destruct rest as [|cur rest'].
    + split; [done|]. intros (i & p & c & _ & Hc & _). by destruct i.
    + rewrite orb_true_iff, IH. split.
      * intros [Hhit|(i & p & c & Hp & Hc & Hhit)].
        -- by exists 0%nat, prev, cur.
        -- by exists (S i), p, c.
      * intros (i & p & c & Hp & Hc & Hhit). destruct i as [|i].
        -- left. simpl in Hp, Hc. by inversion Hp; inversion Hc; subst.
        -- right. by exists i, p, c.
Qed.

End ScanClaims.

(** * The stroke hit-test *)

Lemma distance_lt_9 (d : Distance) :
  (squared d == 9 * 9)%Q -> distance_lt d 10 = true.
Proof. intros Hd. unfold distance_lt, Qlt_bool. by rewrite Hd. Qed.

Lemma distance_lt_11 (d : Distance) :
  (squared d == 11 * 11)%Q -> distance_lt d 10 = false.
Proof. intros Hd. unfold distance_lt, Qlt_bool. by rewrite Hd. Qed.

Section StrokeHit.
Context `{Common}.

(** C5, as amended (stroke hit-test).  A stroke is hit exactly when, for
    some pair of consecutive points, the pointer is less than 10 away from
    the segment and less than 10 away from one of its two ends.  So a pointer
    9 away from a segment hits when it is also less than 10 away from an end
    of that segment, and a pointer 11 away from a segment does not hit. *)
Theorem stroke_hit_threshold :
  (forall (movePos : MousePosition) (positions : list MousePosition),
      strokeHit movePos positions = true
      <-> exists (i : nat) (prev cur : MousePosition),
            positions !! i = Some prev
            /\ positions !! S i = Some cur
            /\ distance_lt (getPositionToLineDistance movePos prev cur) 10 = true
            /\ (distance_lt (getDistance movePos prev) 10 = true
                \/ distance_lt (getDistance movePos cur) 10 = true))
  /\ (forall movePos prev cur : MousePosition,
        (squared (getPositionToLineDistance movePos prev cur) == 9 * 9)%Q ->
        distance_lt (getDistance movePos prev) 10 = true
        \/ distance_lt (getDistance movePos cur) 10 = true ->
        strokeHit movePos [prev; cur] = true)
  /\ (forall movePos prev cur : MousePosition,
        (squared (getPositionToLineDistance movePos prev cur) == 11 * 11)%Q ->
        strokeHit movePos [prev; cur] = false).
Proof.
  split; [|split].
  - intros movePos positions. rewrite strokeHit_iff.
    split; intros (i & prev & cur & Hp & Hc & Hhit); exists i, prev, cur;
      (split; [done|split; [done|]]).
    + unfold segmentHit in Hhit. apply andb_prop in Hhit as [Hends Hseg].
      split; [done|]. by apply orb_true_iff.
    + destruct Hhit as [Hseg Hends]. unfold segmentHit.
      rewrite Hseg, andb_true_r. by apply orb_true_iff.
  - intros movePos prev cur Hd Hends. simpl. unfold segmentHit.
    rewrite (distance_lt_9 _ Hd), andb_true_r, orb_false_r.
    by apply orb_true_iff.
  - intros movePos prev cur Hd. simpl. unfold segmentHit.
    by rewrite (distance_lt_11 _ Hd), andb_false_r.
Qed.

End StrokeHit.

(** * Ordering by layer *)

Section SortOnLayer.
Variable ls : list LayerItem.

Lemma layerCompare_le (a c : Element) :
  layerCompare ls a c <= 0 <-> layerIndex ls c <= layerIndex ls a.
Proof. unfold layerCompare, layerIndex. lia. Qed.

Lemma sort_insert_perm (a : Element) (l : list Element) :
  sort_insert (layerCompare ls) a l ≡ₚ a :: l.
Proof.
  induction l as [|c l IH]; simpl; [done|].
  case_decide; [done|]. rewrite IH. apply perm_swap.
Qed.

Lemma stable_sort_perm (l : list Element) :
  stable_sort (layerCompare ls) l ≡ₚ l.
Proof.
  induction l as [|a l IH]; simpl; [done|].
  unfold stable_sort in IH. by rewrite sort_insert_perm, IH.
Qed.

Lemma sort_insert_sorted (a : Element) (l : list Element) :
  StronglySorted (fun x y => layerIndex ls y <= layerIndex ls x) l ->
  StronglySorted (fun x y => layerIndex ls y <= layerIndex ls x)
                 (sort_insert (layerCompare ls) a l).
Proof.
  induction 1 as [|c l Hl IH Hc]; simpl.
  - by repeat constructor.
  - case_decide as Hcmp.
    + apply layerCompare_le in Hcmp. constructor; [by constructor|].
      constructor; [done|]. eapply Forall_impl; [exact Hc|].
      simpl. intros. lia.
    + constructor; [done|]. rewrite sort_insert_perm.
      constructor; [|done]. unfold layerCompare in Hcmp. unfold layerIndex. lia.
Qed.

Lemma stable_sort_sorted (l : list Element) :
  StronglySorted (fun x y => layerIndex ls y <= layerIndex ls x)
                 (stable_sort (layerCompare ls) l).
Proof.
  induction l as [|a l IH]; simpl; [constructor|].
  by apply sort_insert_sorted.
Qed.

Lemma sort_insert_filter (k : Z) (a : Element) (l : list Element) :
  filter (fun e => layerIndex ls e = k) (sort_insert (layerCompare ls) a l)
  = filter (fun e => layerIndex ls e = k) (a :: l).
Proof.
  induction l as [|c l IH]; simpl; [done|].
  case_decide as Hcmp; [done|].
  rewrite layerCompare_le in Hcmp.
  rewrite (filter_cons _ c), IH, !filter_cons.
  repeat case_decide; try done; lia.
Qed.

Lemma stable_sort_filter (k : Z) (l : list Element) :
  filter (fun e => layerIndex ls e = k) (stable_sort (layerCompare ls) l)
  = filter (fun e => layerIndex ls e = k) l.
Proof.
  induction l as [|a l IH]; [done|].
  change (stable_sort (layerCompare ls) (a :: l))
    with (sort_insert (layerCompare ls) a (stable_sort (layerCompare ls) l)).
  by rewrite sort_insert_filter, !filter_cons, IH.
Qed.

End SortOnLayer.

Lemma layerIndex_lower (ls : list LayerItem) (e : Element) : -1 <= layerIndex ls e.
Proof.
  unfold layerIndex, findIndex.
  destruct (list_find _ ls) as [[i item]|]; lia.
Qed.

Lemma getCurrentStack_sort (cmp : Element -> Element -> Z) (h : History) :
  getCurrentStack (sort cmp h) = stable_sort cmp (getCurrentStack h).
Proof.
  unfold getCurrentStack, sort.
  destruct (timeline h !! step h) as [stack|] eqn:Hs; simpl.
  - rewrite list_lookup_insert_eq; [done|]. by eapply lookup_lt_Some.
  - by rewrite Hs.
Qed.

Lemma sort_others (cmp : Element -> Element -> Z) (h : History) (k : nat) :
  k <> step h -> timeline (sort cmp h) !! k = timeline h !! k.
Proof.
  intros Hk. unfold sort. destruct (timeline h !! step h); [|done].
  simpl. by rewrite list_lookup_insert_ne.
Qed.

(** C6, as amended (ordering by layer).  [sortOnLayer] permutes the live
    stack into descending order of layer position: of two elements, the one
    that comes first (is painted first, below) is on the layer that appears
    later in the layer stack, or on the same layer; elements whose layer is
    not in the layer stack (position [-1]) come last.  Elements on the same
    layer keep their order.  Only the order of the live stack changes: the
    cursor, the length of the timeline and every other version are as
    before. *)
Theorem sortOnLayer_descending :
  forall b : PaintBoard,
    let ls := layer_stack (layer b) in
    let before := getCurrentStack (history b) in
    let after := getCurrentStack (history (sortOnLayer b)) in
    after ≡ₚ before
    /\ (forall (i j : nat) (x y : Element),
          (i < j)%nat -> after !! i = Some x -> after !! j = Some y ->
          layerIndex ls y <= layerIndex ls x)
    /\ (forall (i j : nat) (x y : Element),
          (i < j)%nat -> after !! i = Some x -> after !! j = Some y ->
          layerIndex ls x = -1 -> layerIndex ls y = -1)
    /\ (forall k : Z,
          filter (fun e => layerIndex ls e = k) after
          = filter (fun e => layerIndex ls e = k) before)
    /\ step (history (sortOnLayer b)) = step (history b)
    /\ length (timeline (history (sortOnLayer b))) = length (timeline (history b))
    /\ (forall k : nat,
          k <> step (history b) ->
          timeline (history (sortOnLayer b)) !! k = timeline (history b) !! k).
Proof.
  intros b ls before after.
  assert (Ha : after = stable_sort (layerCompare ls) before).
  { unfold after, before, sortOnLayer. simpl. apply getCurrentStack_sort. }
  rewrite Ha. unfold sortOnLayer; simpl.
  pose proof (StronglySorted_lookup _ _ (stable_sort_sorted ls before)) as Hdesc.
  split; [apply stable_sort_perm|].
  split; [exact Hdesc|].
  split.
  { intros i j x y Hlt Hi Hj Hx. pose proof (Hdesc i j x y Hlt Hi Hj) as Hle.
    pose proof (layerIndex_lower ls y). simpl in Hle. lia. }
  split; [intros k; apply stable_sort_filter|].
  split; [apply sort_step|].
  split; [apply sort_length|].
  intros k Hk. by apply sort_others.
Qed.

(** * Dragging the selected element *)



Lemma getSelectElement_put (b : PaintBoard) (index : Z) (e e' : Element) :
  getSelectElement b index = Some e ->
  getCurrentStack (putSelectElement index e' (history b)) !! Z.to_nat index = Some e'.
Proof.
  unfold getSelectElement, getCurrentStack, putSelectElement. simpl.
  case_decide; [|done]. rewrite list_lookup_alter_eq.
  destruct (timeline (history b) !! step (history b)) as [stack|]; simpl.
  - intros Hi. apply list_lookup_insert_eq. by eapply lookup_lt_Some.
  - by rewrite lookup_nil.
Qed.

Lemma render_selected (b : PaintBoard) (e : Element) :
  getSelectElement b (selectElementIndex b) = Some e -> render b = Returned b.
Proof. unfold render. intros ->. by destruct (_ && _). Qed.

Section Drag.
Context `{Common} `{ElementOps}.

Lemma moveSelectElement_drags (position : MousePosition) (b : PaintBoard)
    (e : Element) :
  selectElementIndex b <> -1 ->
  resizeType b <> RESIZE_NULL ->
  getSelectElement b (selectElementIndex b) = Some e ->
  let movePos := transformPosition b position in
  let b' := board_of (moveSelectElement position b) in
  returns (moveSelectElement position b) = true
  /\ getSelectElement b' (selectElementIndex b)
     = Some (runAction (dragAction (resizeType b)
                          (pos_x movePos - pos_x (resizeMousePos b))%Q
                          (pos_y movePos - pos_y (resizeMousePos b))%Q e))
  /\ isCurrentChange b' = true.
Proof.
  intros Hsel Hrt He movePos b'. unfold b', moveSelectElement. fold movePos.
  destruct (hoverScan_is_set b movePos) as [v ->]. simpl.
  destruct (decide (selectElementIndex b <> -1)); [|done].
  destruct (decide (resizeType b <> RESIZE_NULL)); [|done].
  change (getSelectElement (set_isCurrentChange (set_mouseHoverElementIndex b v) true)
                           (selectElementIndex b))
    with (getSelectElement b (selectElementIndex b)).
  rewrite He.
  set (e' := dragElement (resizeType b)
               (pos_x movePos - pos_x (resizeMousePos b))%Q
               (pos_y movePos - pos_y (resizeMousePos b))%Q e).
  set (b2 := set_resizeMousePos _ movePos).
  assert (Hb2 : getSelectElement b2 (selectElementIndex b) = Some e').
  { pose proof (getSelectElement_put b (selectElementIndex b) e e' He) as Hput.
    unfold getSelectElement in He |- *. by case_decide. }
  rewrite (render_selected b2 e' Hb2). cbn [board_of returns].
  split; [done|]. split; [exact Hb2|done].
Qed.


End Drag.

(** * The claims on the sample boards *)

(** C1 on a text dragged away and back by whole pixels, and on a click
    without a move. *)
Lemma noop_drag_pushes_nothing_witness :
  isCurrentChange textDraggedBackBoard = true
  /\ tempCache textDraggedBackBoard = Some [lowerText; upperText]
  /\ stack_eqb [lowerText; upperText]
       (getCurrentStack (history textDraggedBackBoard)) = true
  /\ history (canvasMouseUp textDraggedBackBoard) = history textDraggedBackBoard
  /\ isCurrentChange overlapBoard = false
  /\ history (canvasMouseUp
                (board_of (@clickSelectElement sampleCommon (mkPos 60 60) overlapBoard)))
     = history overlapBoard.
Proof.
  split; [reflexivity|]. split; [reflexivity|]. split; [reflexivity|]. split.
  - apply (proj1 (@noop_drag_pushes_nothing sampleCommon) textDraggedBackBoard).
    intros cache Hc. vm_compute in Hc. inversion Hc. reflexivity.
  - split; [reflexivity|].
    apply (proj2 (@noop_drag_pushes_nothing sampleCommon)). reflexivity.
Defined.

(** C1, as first stated, fails: a stroke grabbed by its bottom-right handle
    at [(30, 50)], taken to [(10, 50)] and back to [(30, 50)], has had no net
    movement of the pointer, yet it stays collapsed to width zero, so the live
    stack differs from the copy taken at pointer-down and [canvasMouseUp]
    pushes an entry. *)
Lemma zero_net_drag_pushes_entry :
  resizeMousePos collapseBoard = mkPos 30 50
  /\ resizeMousePos collapsedBackBoard = mkPos 30 50
  /\ tempCache collapsedBackBoard = Some [slantedLine]
  /\ stack_eqb [slantedLine] (getCurrentStack (history collapsedBackBoard)) = false
  /\ length (timeline (history collapsedBackBoard)) = 1%nat
  /\ length (timeline (history (canvasMouseUp collapsedBackBoard))) = 2%nat.
Proof. repeat split; reflexivity. Qed.

(** C2 on a board with two committed texts, for a new stroke and a new text. *)
Lemma redo_after_undo_add_is_noop_witness :
  FREE_LINE <> TEXT
  /\ (let b1 := recordCurrent FREE_LINE (board_of (board_undo editedBoard)) in
      returns (board_redo b1) = true
      /\ history (board_of (board_redo b1)) = history b1
      /\ getCurrentStack (history (board_of (board_redo b1)))
         = getCurrentStack (history b1))
  /\ "hi"%string <> EmptyString
  /\ (let b1 := board_of (addTextElement "hi"%string (mkRect 0 0 10 10)
                            (board_of (board_undo editedBoard))) in
      returns (board_redo b1) = true
      /\ history (board_of (board_redo b1)) = history b1
      /\ getCurrentStack (history (board_of (board_redo b1)))
         = getCurrentStack (history b1)).
Proof.
  split; [discriminate|]. split.
  - apply (proj1 (proj2 redo_after_undo_add_is_noop)). discriminate.
  - split; [discriminate|].
    apply (proj2 (proj2 redo_after_undo_add_is_noop)). discriminate.
Defined.

(** C3 on a board with two committed texts, three times over, and at both
    ends of a timeline. *)
Lemma undo_redo_inverse_witness :
  history editedBoard
  = run_edits [EditAdd lowerText; EditAdd upperText] (newHistory [])
  /\ (exists b',
         Nat.iter 3 (fun o => and_then o undo_then_redo) (Returned editedBoard)
         = Returned b'
         /\ history b' = history editedBoard
         /\ getCurrentStack (history b') = getCurrentStack (history editedBoard))
  /\ step (history overlapBoard) = O
  /\ history (board_of (board_undo overlapBoard)) = history overlapBoard
  /\ S (step (history editedBoard)) = length (timeline (history editedBoard))
  /\ history (board_of (board_redo editedBoard)) = history editedBoard.
Proof.
  pose proof (undo_redo_inverse [] [EditAdd lowerText; EditAdd upperText] 3
                editedBoard eq_refl) as (Hiter & Hundo & Hredo).
  split; [reflexivity|]. split; [exact Hiter|]. split; [reflexivity|].
  split; [exact (proj2 (Hundo overlapBoard eq_refl))|]. split; [reflexivity|].
  exact (proj2 (Hredo editedBoard eq_refl)).
Defined.

(** C4 on two overlapping texts: the one later in the live stack is
    hovered, and the earlier one once the layer of the later one is hidden;
    on the sorted stack the hovered text is on the first layer. *)
Lemma hover_scan_topmost_first_witness :
  hasElements overlapBoard = true
  /\ mouseHoverElementIndex (@hoverScan sampleCommon overlapBoard (mkPos 60 60)) = 1
  /\ hasElements overlapBoardHidden = true
  /\ mouseHoverElementIndex (@hoverScan sampleCommon overlapBoardHidden (mkPos 60 60))
     = 0
  /\ layerSorted (layer_stack (layer (sortOnLayer overlapBoard)))
       (getCurrentStack (history (sortOnLayer overlapBoard)))
  /\ layerIndex (layer_stack (layer (sortOnLayer overlapBoard))) lowerText
     <= layerIndex (layer_stack (layer (sortOnLayer overlapBoard))) upperText.
Proof.
  assert (Hsorted : layerSorted (layer_stack (layer (sortOnLayer overlapBoard)))
                      (getCurrentStack (history (sortOnLayer overlapBoard)))).
  { repeat constructor; discriminate. }
  destruct (@hover_scan_topmost_first sampleCommon overlapBoard (mkPos 60 60) eq_refl)
    as (_ & _ & _ & _ & Htwo & _).
  destruct (@hover_scan_topmost_first sampleCommon overlapBoardHidden (mkPos 60 60)
              eq_refl) as (_ & _ & _ & _ & Htwo' & _).
  destruct (@hover_scan_topmost_first sampleCommon (sortOnLayer overlapBoard)
              (mkPos 60 60) eq_refl) as (_ & _ & _ & _ & _ & Hlayer).
  split; [reflexivity|].
  split; [exact (Htwo lowerText upperText eq_refl eq_refl eq_refl)|].
  split; [reflexivity|].
  split; [exact (Htwo' lowerText upperText eq_refl eq_refl eq_refl)|].
  split; [exact Hsorted|].
  exact (Hlayer Hsorted 1%nat 0%nat lowerText upperText eq_refl eq_refl eq_refl
           eq_refl).
Defined.

(** C4, as first stated, fails: with the same two layers, both shown, and
    the pointer on both texts, the scan resolves to the text of the second
    layer on the stack as the texts were added, and to the text of the first
    layer once [sortOnLayer] has run; the layer alone does not tell which
    element is hovered. *)
Lemma hover_follows_stack_not_layer :
  layer (sortOnLayer overlapBoard) = layer overlapBoard
  /\ getCurrentStack (history overlapBoard) = [lowerText; upperText]
  /\ mouseHoverElementIndex (@hoverScan sampleCommon overlapBoard (mkPos 60 60)) = 1
  /\ ele_layer upperText = Some 2
  /\ getCurrentStack (history (sortOnLayer overlapBoard)) = [upperText; lowerText]
  /\ mouseHoverElementIndex
       (@hoverScan sampleCommon (sortOnLayer overlapBoard) (mkPos 60 60)) = 1
  /\ ele_layer lowerText = Some 1.
Proof. repeat split; reflexivity. Qed.

(** C5 near the start of a horizontal segment: 9 away hits, 11 away does not. *)
Lemma stroke_hit_threshold_witness :
  (squared (specGetPositionToLineDistance (mkPos 4 9) (mkPos 0 0) (mkPos 100 0))
   == 9 * 9)%Q
  /\ distance_lt (specGetDistance (mkPos 4 9) (mkPos 0 0)) 10 = true
  /\ @strokeHit sampleCommon (mkPos 4 9) [mkPos 0 0; mkPos 100 0] = true
  /\ (squared (specGetPositionToLineDistance (mkPos 4 11) (mkPos 0 0) (mkPos 100 0))
      == 11 * 11)%Q
  /\ @strokeHit sampleCommon (mkPos 4 11) [mkPos 0 0; mkPos 100 0] = false.
Proof.
  split; [reflexivity|]. split; [reflexivity|]. split.
  - apply (proj1 (proj2 (@stroke_hit_threshold sampleCommon))).
    + reflexivity.
    + left. reflexivity.
  - split; [reflexivity|].
    apply (proj2 (proj2 (@stroke_hit_threshold sampleCommon))). reflexivity.
Defined.

(** C6 on the two overlapping texts: the one on the later layer comes first. *)
Lemma sortOnLayer_descending_witness :
  getCurrentStack (history (sortOnLayer overlapBoard)) !! 0%nat = Some upperText
  /\ getCurrentStack (history (sortOnLayer overlapBoard)) !! 1%nat = Some lowerText
  /\ layerIndex (layer_stack twoLayers) lowerText
     <= layerIndex (layer_stack twoLayers) upperText.
Proof.
  split; [reflexivity|]. split; [reflexivity|].
  apply (proj1 (proj2 (sortOnLayer_descending overlapBoard)) 0%nat 1%nat
           upperText lowerText); [repeat constructor|reflexivity|reflexivity].
Defined.


(** C8 on a panned board: the text lands at [(30 - 10 - 5, 40 - 20 - 7)]. *)
Lemma addTextElement_spec_witness :
  "hi"%string <> EmptyString
  /\ getCurrentStack
       (history (board_of (addTextElement "hi"%string
                             (mkRect 30 40 50 20) pannedBoard)))
     = [lowerText;
        TextElement (Some 1) "hi"%string
          (mkRect (30 - 10 - 5) (40 - 20 - 7) 50 20)].
Proof.
  split; [discriminate|].
  apply (proj1 (proj2 (proj2 addTextElement_spec "hi"%string
                          (mkRect 30 40 50 20) pannedBoard
                          ltac:(discriminate)))).
Defined.



(** C5, as first stated, fails: the pointer [(50, 9)] is exactly 9 away from
    the segment from [(0, 0)] to [(100, 0)], and more than 10 away from both
    ends, so the stroke is not hit. *)
Lemma stroke_9_away_not_hit :
  (squared (specGetPositionToLineDistance (mkPos 50 9) (mkPos 0 0) (mkPos 100 0))
   == 9 * 9)%Q
  /\ distance_lt (specGetDistance (mkPos 50 9) (mkPos 0 0)) 10 = false
  /\ distance_lt (specGetDistance (mkPos 50 9) (mkPos 100 0)) 10 = false
  /\ @strokeHit sampleCommon (mkPos 50 9) [mkPos 0 0; mkPos 100 0] = false.
Proof. repeat split; reflexivity. Qed.

(** C6, as first stated, fails: layer 1 is before layer 2 in the layer
    stack, and after the sort the element on layer 2 comes first. *)
Lemma sortOnLayer_later_layer_first :
  getCurrentStack (history overlapBoard) = [lowerText; upperText]
  /\ getCurrentStack (history (sortOnLayer overlapBoard)) = [upperText; lowerText]
  /\ layerIndex (layer_stack (layer overlapBoard)) lowerText = 0
  /\ layerIndex (layer_stack (layer overlapBoard)) upperText = 1.
Proof. repeat split; reflexivity. Qed.


(** * Panning the canvas *)

Lemma truthy_false (q : Q) : (q == 0)%Q -> truthy q = false.
Proof. intros Hq. unfold truthy. apply Qeq_bool_iff in Hq. by rewrite Hq. Qed.

Lemma truthy_true (q : Q) : ~ (q == 0)%Q -> truthy q = true.
Proof.
  intros Hq. unfold truthy. destruct (Qeq_bool q 0) eqn:Hb; [|done].
  by apply Qeq_bool_eq in Hb.
Qed.

Lemma render_returns_same (b b' : PaintBoard) :
  history b' = history b ->
  selectElementIndex b' = selectElementIndex b ->
  returns (render b') = returns (render b).
Proof.
  intros Hh Hs. unfold render, hasElements, getSelectElement.
  rewrite Hh, Hs. destruct (_ && _); [|done].
  by destruct (if decide (0 <= selectElementIndex b) then _ else _).
Qed.

Lemma render_set_originTranslate (b : PaintBoard) (v : MousePosition) :
  returns (render b) = true ->
  render (set_originTranslate b v) = Returned (set_originTranslate b v).
Proof.
  unfold render, hasElements, getSelectElement. simpl.
  destruct (_ && _); [|done].
  by destruct (if decide (0 <= selectElementIndex b) then _ else _).
Qed.

Lemma dragCanvas_step (position : MousePosition) (b : PaintBoard) :
  ~ (pos_x (originPosition b) == 0)%Q ->
  ~ (pos_y (originPosition b) == 0)%Q ->
  returns (render b) = true ->
  dragCanvas position b
  = Returned
      (set_originPosition
         (set_originTranslate b
            (mkPos (pos_x (canvasPosition b position) - pos_x (originPosition b)
                    + pos_x (originTranslate b))
                   (pos_y (canvasPosition b position) - pos_y (originPosition b)
                    + pos_y (originTranslate b))))
         (canvasPosition b position)).
Proof.
  intros Hx Hy Hr. unfold dragCanvas.
  rewrite (truthy_true _ Hx), (truthy_true _ Hy). simpl.
  by rewrite render_set_originTranslate.
Qed.

Lemma dragCanvas_first (position : MousePosition) (b : PaintBoard) :
  (pos_x (originPosition b) == 0)%Q \/ (pos_y (originPosition b) == 0)%Q ->
  dragCanvas position b
  = Returned (set_originPosition b (canvasPosition b position)).
Proof.
  intros Hz. unfold dragCanvas.
  destruct Hz as [Hz|Hz]; rewrite (truthy_false _ Hz);
    [|rewrite andb_false_r]; done.
Qed.

Lemma canvasMouseUp_canvasRect (b : PaintBoard) :
  canvasRect_left (canvasMouseUp b) = canvasRect_left b
  /\ canvasRect_top (canvasMouseUp b) = canvasRect_top b
  /\ originTranslate (canvasMouseUp b) = originTranslate b
  /\ originPosition (canvasMouseUp b) = mkPos 0 0.
Proof. unfold canvasMouseUp. by destruct (isCurrentChange b), (tempCache b). Qed.

(** X1 (the first pan event only records).  When a coordinate of the
    position recorded last is zero, [dragCanvas] returns and changes nothing
    but that recorded position, which becomes the pointer position relative
    to the canvas: the pan offset stays.  This is the case of the first event
    after [canvasMouseUp], which resets the recorded position to the origin,
    and of an event that follows one on the left or top edge of the canvas. *)
Theorem pan_first_event_records_only :
  forall (position : MousePosition) (b : PaintBoard),
    ((pos_x (originPosition b) == 0)%Q \/ (pos_y (originPosition b) == 0)%Q ->
     dragCanvas position b
     = Returned (set_originPosition b (canvasPosition b position)))
    /\ dragCanvas position (canvasMouseUp b)
       = Returned (set_originPosition (canvasMouseUp b)
                     (canvasPosition b position))
    /\ originTranslate (board_of (dragCanvas position (canvasMouseUp b)))
       = originTranslate b.
Proof.
  intros position b. split; [apply dragCanvas_first|].
  destruct (canvasMouseUp_canvasRect b) as (Hl & Ht & Htr & Ho).
  assert (Hup : dragCanvas position (canvasMouseUp b)
                = Returned (set_originPosition (canvasMouseUp b)
                              (canvasPosition b position))).
  { rewrite dragCanvas_first; [|left; by rewrite Ho].
    unfold canvasPosition. by rewrite Hl, Ht. }
  split; [exact Hup|]. rewrite Hup. exact Htr.
Qed.

Lemma dragAll_net (ps : list MousePosition) :
  forall (b : PaintBoard) (q pn : MousePosition),
    returns (render b) = true ->
    originPosition b = canvasPosition b q ->
    offEdge b q ->
    Forall (offEdge b) ps ->
    let b' := board_of (dragAll (ps ++ [pn]) b) in
    returns (dragAll (ps ++ [pn]) b) = true
    /\ (pos_x (originTranslate b')
        == pos_x (originTranslate b) + (pos_x pn - pos_x q))%Q
    /\ (pos_y (originTranslate b')
        == pos_y (originTranslate b) + (pos_y pn - pos_y q))%Q
    /\ history b' = history b
    /\ selectElementIndex b' = selectElementIndex b.
Proof.
  induction ps as [|p ps IH]; intros b q pn Hr Ho [Hqx Hqy] Hps; simpl.
  - rewrite dragCanvas_step by (by rewrite ?Ho). simpl. rewrite Ho. simpl.
    split; [done|]. split; [ring|]. split; [ring|done].
  - rewrite dragCanvas_step by (by rewrite ?Ho). simpl.
    set (b1 := set_originPosition _ _).
    apply Forall_cons in Hps as [Hp Hps].
    destruct (IH b1 p pn) as (Hret & Hx & Hy & Hh & Hs);
      [by rewrite (render_returns_same b b1)|reflexivity|exact Hp|exact Hps|].
    split; [done|]. split; [|split; [|done]].
    + rewrite Hx. unfold b1. simpl. rewrite Ho. simpl. ring.
    + rewrite Hy. unfold b1. simpl. rewrite Ho. simpl. ring.
Qed.

Lemma pixel_inject (n : Z) : Z.abs n <= 2 ^ 50 -> pixel (inject_Z n).
Proof. intros Hn. exists n. by split. Qed.

Lemma pixelPos_inject (x y : Z) :
  Z.abs x <= 2 ^ 50 -> Z.abs y <= 2 ^ 50 -> pixelPos (mkPos (inject_Z x) (inject_Z y)).
Proof. intros Hx Hy. split; by apply pixel_inject. Qed.

(** X2 (a pan moves the canvas by the net displacement of the pointer).
    On whole-pixel coordinates (the canvas corner, the pan offset and the
    pointer positions are whole numbers of magnitude at most [2 ^ 50], so
    that the code's double arithmetic is exact), and starting with no
    recorded position, a run of [dragCanvas] events that begins at [p0] and
    ends at [pn] returns and adds [pn - p0] to the pan offset, whatever the
    path in between, and touches neither the history nor the selection,
    provided [render] does not throw on the board and no event but the last
    is on the left or top edge of the canvas. *)
Theorem pan_net_displacement :
  forall (b : PaintBoard) (p0 pn : MousePosition) (ps : list MousePosition),
    returns (render b) = true ->
    Forall (offEdge b) (p0 :: ps) ->
    pixel (canvasRect_left b) ->
    pixel (canvasRect_top b) ->
    pixelPos (originTranslate b) ->
    Forall pixelPos (p0 :: ps ++ [pn]) ->
    let run := dragAll (p0 :: ps ++ [pn]) (initOriginPosition b) in
    returns run = true
    /\ (pos_x (originTranslate (board_of run))
        == pos_x (originTranslate b) + (pos_x pn - pos_x p0))%Q
    /\ (pos_y (originTranslate (board_of run))
        == pos_y (originTranslate b) + (pos_y pn - pos_y p0))%Q
    /\ history (board_of run) = history b
    /\ selectElementIndex (board_of run) = selectElementIndex b.
Proof.
  intros b p0 pn ps Hr Hps _ _ _ _ run. unfold run. cbn [dragAll].
  apply Forall_cons in Hps as [Hp0 Hps].
  rewrite dragCanvas_first by (by left). cbn [and_then].
  set (b1 := set_originPosition _ _).
  apply (dragAll_net ps b1 p0 pn);
    [by rewrite (render_returns_same b b1)|reflexivity|exact Hp0|exact Hps].
Qed.

(** X3 (panned content keeps its board coordinates).  On whole-pixel
    coordinates (the canvas corner, the pan offset, the recorded position and
    the two page positions are whole numbers of magnitude at most [2 ^ 50],
    so that the code's double arithmetic is exact), after a pan step a page
    position shifted by the same displacement as the pan has the board
    coordinates the unshifted position had before: what was drawn moves with
    the canvas. *)
Theorem pan_keeps_board_coordinates :
  forall (position q : MousePosition) (b : PaintBoard),
    ~ (pos_x (originPosition b) == 0)%Q ->
    ~ (pos_y (originPosition b) == 0)%Q ->
    returns (render b) = true ->
    pixel (canvasRect_left b) ->
    pixel (canvasRect_top b) ->
    pixelPos (originTranslate b) ->
    pixelPos (originPosition b) ->
    pixelPos position ->
    pixelPos q ->
    let b' := board_of (dragCanvas position b) in
    let dX := (pos_x (canvasPosition b position) - pos_x (originPosition b))%Q in
    let dY := (pos_y (canvasPosition b position) - pos_y (originPosition b))%Q in
    (pos_x (transformPosition b' (mkPos (pos_x q + dX) (pos_y q + dY)))
     == pos_x (transformPosition b q))%Q
    /\ (pos_y (transformPosition b' (mkPos (pos_x q + dX) (pos_y q + dY)))
        == pos_y (transformPosition b q))%Q.
Proof.
  intros position q b Hx Hy Hr _ _ _ _ _ _ b' dX dY. unfold b'.
  rewrite dragCanvas_step by done. unfold dX, dY. simpl. split; ring.
Qed.

(** * Pointer moves in selection mode *)

Lemma getSelectElement_index (b : PaintBoard) (index : Z) (e : Element) :
  getSelectElement b index = Some e ->
  0 <= index /\ getCurrentStack (history b) !! Z.to_nat index = Some e.
Proof. unfold getSelectElement. by case_decide. Qed.

Lemma getCurrentStack_put (index : Z) (e' : Element) (h : History) :
  getCurrentStack (putSelectElement index e' h)
  = <[Z.to_nat index := e']> (getCurrentStack h).
Proof.
  unfold getCurrentStack, putSelectElement. simpl.
  rewrite list_lookup_alter_eq. by destruct (timeline h !! step h).
Qed.

Section Moves.
Context `{Common} `{ElementOps}.

Lemma moveSelectElement_frame (position : MousePosition) (b : PaintBoard)
    (e : Element) :
  selectElementIndex b <> -1 ->
  resizeType b <> RESIZE_NULL ->
  getSelectElement b (selectElementIndex b) = Some e ->
  let movePos := transformPosition b position in
  exists v : Z,
    moveSelectElement position b
    = Returned
        (set_resizeMousePos
           (set_history
              (set_isCurrentChange (set_mouseHoverElementIndex b v) true)
              (putSelectElement (selectElementIndex b)
                 (dragElement (resizeType b)
                    (pos_x movePos - pos_x (resizeMousePos b))%Q
                    (pos_y movePos - pos_y (resizeMousePos b))%Q e)
                 (history b)))
           movePos).
Proof.
  intros Hsel Hrt He movePos. unfold moveSelectElement. fold movePos.
  destruct (hoverScan_is_set b movePos) as [v Hv]. exists v. rewrite Hv. simpl.
  destruct (decide (selectElementIndex b <> -1)); [|done].
  destruct (decide (resizeType b <> RESIZE_NULL)); [|done].
  change (getSelectElement (set_isCurrentChange (set_mouseHoverElementIndex b v) true)
                           (selectElementIndex b))
    with (getSelectElement b (selectElementIndex b)).
  rewrite He.
  set (e' := dragElement _ _ _ e). set (b2 := set_resizeMousePos _ movePos).
  apply (render_selected b2 e').
  change (selectElementIndex b2) with (selectElementIndex b).
  pose proof (getSelectElement_put b (selectElementIndex b) e e' He) as Hput.
  unfold getSelectElement in He |- *. case_decide; [exact Hput|done].
Qed.

(** X4 (a pointer move outside a drag leaves the drawing alone).  When
    nothing is selected, or no handle is held, [moveSelectElement] changes at
    most the hover index: the history, the selection, the snapshot and every
    setting stay; with nothing selected it always returns. *)
Theorem move_outside_drag_keeps_board :
  forall (position : MousePosition) (b : PaintBoard),
    selectElementIndex b = -1 \/ resizeType b = RESIZE_NULL ->
    (exists v : Z,
        board_of (moveSelectElement position b) = set_mouseHoverElementIndex b v)
    /\ (selectElementIndex b = -1 ->
        returns (moveSelectElement position b) = true).
Proof.
  intros position b Hout. unfold moveSelectElement.
  destruct (hoverScan_is_set b (transformPosition b position)) as [v Hv].
  rewrite Hv. simpl. split.
  - exists v. destruct (decide (selectElementIndex b <> -1)); [|done].
    destruct (decide (resizeType b <> RESIZE_NULL)) as [Hrt|_].
    + by destruct Hout.
    + by destruct (getSelectElement _ _).
  - intros Hsel. by destruct (decide (selectElementIndex b <> -1)).
Qed.

(** X5 (a drag frame touches the selected element only).  While a handle of
    a selected element is held, [moveSelectElement] returns and, in the live
    stack, replaces the selected element alone: every other index reads the
    same element, the stack keeps its length, the cursor and the other
    versions of the timeline, the selection and the snapshot taken at
    pointer-down stay, and the recorded pointer position becomes the new
    one. *)
Theorem drag_frame_changes_only_selected :
  forall (position : MousePosition) (b : PaintBoard) (e : Element),
    selectElementIndex b <> -1 ->
    resizeType b <> RESIZE_NULL ->
    getSelectElement b (selectElementIndex b) = Some e ->
    let b' := board_of (moveSelectElement position b) in
    returns (moveSelectElement position b) = true
    /\ (forall j : Z,
          j <> selectElementIndex b -> getSelectElement b' j = getSelectElement b j)
    /\ length (getCurrentStack (history b')) = length (getCurrentStack (history b))
    /\ step (history b') = step (history b)
    /\ (forall k : nat,
          k <> step (history b) ->
          timeline (history b') !! k = timeline (history b) !! k)
    /\ selectElementIndex b' = selectElementIndex b
    /\ resizeType b' = resizeType b
    /\ tempCache b' = tempCache b
    /\ resizeMousePos b' = transformPosition b position.
Proof.
  intros position b e Hsel Hrt He b'. unfold b'.
  destruct (moveSelectElement_frame position b e Hsel Hrt He) as [v ->].
  cbn [board_of returns]. set (e' := dragElement _ _ _ e).
  destruct (getSelectElement_index _ _ _ He) as [Hpos _].
  split; [done|]. split.
  { intros j Hj. unfold getSelectElement. simpl.
    case_decide; [|done]. rewrite getCurrentStack_put.
    apply list_lookup_insert_ne. lia. }
  split.
  { simpl. by rewrite getCurrentStack_put, length_insert. }
  split; [done|]. split; [|done].
  intros k Hk. simpl. by apply list_lookup_alter_ne.
Qed.

End Moves.

Section Sessions_facts.
Context `{Common} `{ElementOps}.

Lemma moveSelectElement_unselected (position : MousePosition) (b : PaintBoard) :
  selectElementIndex b = -1 ->
  moveSelectElement position b
  = Returned (hoverScan b (transformPosition b position)).
Proof.
  intros Hsel. unfold moveSelectElement.
  destruct (hoverScan_is_set b (transformPosition b position)) as [v ->].
  simpl. by destruct (decide (selectElementIndex b <> -1)).
Qed.

Lemma text_body_frame (position : MousePosition) (b : PaintBoard)
    (l : option Z) (v : string) (r : ElementRect) :
  selectElementIndex b <> -1 ->
  resizeType b = RESIZE_BODY ->
  getSelectElement b (selectElementIndex b) = Some (TextElement l v r) ->
  let movePos := transformPosition b position in
  let b' := board_of (moveSelectElement position b) in
  returns (moveSelectElement position b) = true
  /\ getSelectElement b' (selectElementIndex b')
     = Some (TextElement l v
               (mkRect (rect_x r + (pos_x movePos - pos_x (resizeMousePos b)))
                       (rect_y r + (pos_y movePos - pos_y (resizeMousePos b)))
                       (rect_width r) (rect_height r)))
  /\ selectElementIndex b' = selectElementIndex b
  /\ resizeType b' = RESIZE_BODY
  /\ resizeMousePos b' = movePos
  /\ (forall p : MousePosition, transformPosition b' p = transformPosition b p).
Proof.
  intros Hsel Hrt He movePos b'.
  assert (Hrt' : resizeType b <> RESIZE_NULL) by (by rewrite Hrt).
  destruct (moveSelectElement_drags position b _ Hsel Hrt' He) as (Hret & Hget & _).
  fold movePos b' in Hget. rewrite Hrt in Hget. simpl in Hget.
  assert (Hb' : selectElementIndex b' = selectElementIndex b
                /\ resizeType b' = RESIZE_BODY
                /\ resizeMousePos b' = movePos
                /\ forall p : MousePosition,
                     transformPosition b' p = transformPosition b p).
  { unfold b'.
    destruct (moveSelectElement_frame position b _ Hsel Hrt' He) as [v0 ->].
    by rewrite <- Hrt. }
  destruct Hb' as (Hs & Hb').
  split; [done|]. split; [by rewrite Hs|]. by split.
Qed.

Lemma text_body_drag_net :
  forall (ps : list MousePosition) (pn : MousePosition) (b : PaintBoard)
         (l : option Z) (v : string) (r : ElementRect),
    selectElementIndex b <> -1 ->
    resizeType b = RESIZE_BODY ->
    getSelectElement b (selectElementIndex b) = Some (TextElement l v r) ->
    let b' := board_of (moveAll (ps ++ [pn]) b) in
    returns (moveAll (ps ++ [pn]) b) = true
    /\ exists r' : ElementRect,
         getSelectElement b' (selectElementIndex b) = Some (TextElement l v r')
         /\ (rect_x r'
             == rect_x r + (pos_x (transformPosition b pn) - pos_x (resizeMousePos b)))%Q
         /\ (rect_y r'
             == rect_y r + (pos_y (transformPosition b pn) - pos_y (resizeMousePos b)))%Q
         /\ rect_width r' = rect_width r
         /\ rect_height r' = rect_height r.
Proof.
  induction ps as [|p ps IH]; intros pn b l v r Hsel Hrt He; cbn [app moveAll].
  - destruct (text_body_frame pn b l v r Hsel Hrt He)
      as (Hret & Hget & Hs & _).
    destruct (moveSelectElement pn b) as [b1|b1]; [|done].
    cbn [and_then moveAll board_of] in *. split; [done|].
    rewrite Hs in Hget. eexists. split; [exact Hget|]. simpl.
    split; [reflexivity|]. split; [reflexivity|done].
  - destruct (text_body_frame p b l v r Hsel Hrt He)
      as (Hret & Hget & Hs & Hrt1 & Hm & Htr).
    destruct (moveSelectElement p b) as [b1|b1]; [|done].
    cbn [and_then board_of] in *.
    destruct (IH pn b1 l v _ ltac:(by rewrite Hs) Hrt1 Hget)
      as (Hret' & r' & Hget' & Hx & Hy & Hw & Hh).
    split; [done|]. exists r'. rewrite <- Hs. split; [done|].
    rewrite Hx, Hy, Htr, Hm. simpl. split; [ring|]. split; [ring|done].
Qed.

(** X6 (a text dragged by its body follows the pointer).  On whole-pixel
    coordinates (the canvas corner, the pan offset, the position recorded at
    pointer-down, the corner of the text box and the pointer positions are
    whole numbers of magnitude at most [2 ^ 50], so that the code's double
    arithmetic is exact), while the body of a selected text box is held, a
    run of pointer moves that ends at [pn] returns and leaves the text box
    displaced by the vector from the position recorded at pointer-down to
    [pn], in board coordinates, whatever the path in between; its layer,
    value, width and height are untouched. *)
Theorem text_body_drag_follows_pointer :
  forall (ps : list MousePosition) (pn : MousePosition) (b : PaintBoard)
         (l : option Z) (v : string) (r : ElementRect),
    selectElementIndex b <> -1 ->
    resizeType b = RESIZE_BODY ->
    getSelectElement b (selectElementIndex b) = Some (TextElement l v r) ->
    pixel (canvasRect_left b) ->
    pixel (canvasRect_top b) ->
    pixelPos (originTranslate b) ->
    pixelPos (resizeMousePos b) ->
    pixel (rect_x r) ->
    pixel (rect_y r) ->
    Forall pixelPos (ps ++ [pn]) ->
    let b' := board_of (moveAll (ps ++ [pn]) b) in
    returns (moveAll (ps ++ [pn]) b) = true
    /\ exists r' : ElementRect,
         getSelectElement b' (selectElementIndex b) = Some (TextElement l v r')
         /\ (rect_x r'
             == rect_x r + (pos_x (transformPosition b pn) - pos_x (resizeMousePos b)))%Q
         /\ (rect_y r'
             == rect_y r + (pos_y (transformPosition b pn) - pos_y (resizeMousePos b)))%Q
         /\ rect_width r' = rect_width r
         /\ rect_height r' = rect_height r.
Proof.
  intros ps pn b l v r Hsel Hrt He _ _ _ _ _ _ _.
  by apply text_body_drag_net.
Qed.

(** X7 (a stale hover index on an empty board).  On a board whose live
    stack is empty the scan does not run, so a pointer move leaves a hover
    index set earlier as it is.  A click then selects that index, although no
    element is there, and returns; the pointer move that follows throws when
    it reads the rectangle of the selected element. *)
Theorem stale_hover_on_empty_board_throws :
  forall (p q : MousePosition) (b : PaintBoard),
    getCurrentStack (history b) = [] ->
    selectElementIndex b = -1 ->
    resizeType b = RESIZE_NULL ->
    mouseHoverElementIndex b <> -1 ->
    moveSelectElement p b = Returned b
    /\ returns (clickSelectElement p b) = true
    /\ selectElementIndex (board_of (clickSelectElement p b))
       = mouseHoverElementIndex b
    /\ returns (moveSelectElement q (board_of (clickSelectElement p b))) = false.
Proof.
  intros p q b Hstack Hsel Hrt Hhover.
  assert (Hempty : forall b0 : PaintBoard,
             history b0 = history b -> hasElements b0 = false).
  { intros b0 Hh. unfold hasElements. by rewrite Hh, Hstack. }
  assert (Hclick : clickSelectElement p b
                   = Returned
                       (set_resizeMousePos
                          (set_tempCache
                             (set_selectElementIndex b (mouseHoverElementIndex b))
                             (Some (getCurrentStack (history b))))
                          (transformPosition b p))).
  { unfold clickSelectElement.
    destruct (decide (selectElementIndex b <> -1)); [done|]. cbn [and_then].
    destruct (decide (resizeType b = RESIZE_NULL)); [|done].
    destruct (decide (mouseHoverElementIndex b <> -1)); [|done].
    cbn [selectElementIndex set_selectElementIndex].
    destruct (decide (mouseHoverElementIndex b <> -1)); [|done].
    unfold render. rewrite Hempty; done. }
  split.
  { rewrite moveSelectElement_unselected by done.
    unfold hoverScan. by rewrite Hempty. }
  rewrite Hclick. cbn [board_of returns]. split; [done|]. split; [done|].
  set (b1 := set_resizeMousePos _ _).
  unfold moveSelectElement, hoverScan. rewrite (Hempty b1) by done.
  change (selectElementIndex b1) with (mouseHoverElementIndex b).
  change (resizeType b1) with (resizeType b).
  destruct (decide (mouseHoverElementIndex b <> -1)); [|done].
  destruct (decide (resizeType b <> RESIZE_NULL)); [done|].
  assert (Hnone : getSelectElement b1 (mouseHoverElementIndex b) = None).
  { unfold getSelectElement. change (history b1) with (history b).
    rewrite Hstack. by case_decide. }
  by rewrite Hnone.
Qed.

(** X8 (a click selects what the last move hovered).  On a board with
    elements, nothing selected and no handle held, a pointer move followed by
    a click both return, leave the history alone and hold no handle.  The
    click selects the shown element under the moved pointer that is painted
    last, snapshots the live stack and records the click position; when no
    shown element is under the pointer, nothing is selected and no snapshot
    is taken. *)
Theorem hover_then_click_selects_candidate :
  forall (p p' : MousePosition) (b : PaintBoard),
    hasElements b = true ->
    selectElementIndex b = -1 ->
    resizeType b = RESIZE_NULL ->
    let stack := getCurrentStack (history b) in
    let ids := showLayerIds (layer b) in
    let movePos := transformPosition b p in
    let b1 := board_of (moveSelectElement p b) in
    let b2 := board_of (clickSelectElement p' b1) in
    returns (moveSelectElement p b) = true
    /\ returns (clickSelectElement p' b1) = true
    /\ history b2 = history b
    /\ resizeType b2 = RESIZE_NULL
    /\ ((exists (i : nat) (e : Element),
            selectElementIndex b2 = Z.of_nat i
            /\ stack !! i = Some e
            /\ candidate ids movePos e = true
            /\ (forall (j : nat) (e' : Element),
                  (i < j)%nat -> stack !! j = Some e' ->
                  candidate ids movePos e' = false)
            /\ tempCache b2 = Some stack
            /\ resizeMousePos b2 = transformPosition b p')
        \/ (selectElementIndex b2 = -1
            /\ (forall (j : nat) (e' : Element),
                  stack !! j = Some e' -> candidate ids movePos e' = false)
            /\ tempCache b2 = tempCache b)).
Proof.
  intros p p' b Hb Hsel Hrt stack ids movePos b1 b2.
  unfold b2, b1. rewrite moveSelectElement_unselected by done.
  cbn [board_of returns]. fold movePos.
  pose proof (hoverScan_cases b movePos Hb) as Hcases.
  destruct (hoverScan_is_set b movePos) as [v Hv]. rewrite Hv in Hcases |- *.
  cbn [mouseHoverElementIndex set_mouseHoverElementIndex] in Hcases.
  fold stack ids in Hcases.
  unfold clickSelectElement.
  cbn [selectElementIndex set_mouseHoverElementIndex].
  destruct (decide (selectElementIndex b <> -1)); [done|]. cbn [and_then].
  cbn [resizeType mouseHoverElementIndex set_mouseHoverElementIndex].
  destruct (decide (resizeType b = RESIZE_NULL)); [|done].
  destruct Hcases as [(i & ele & -> & Hi & Hc & Hab)|[-> Hno]].
  - destruct (decide (Z.of_nat i <> -1)); [|lia].
    cbn [selectElementIndex set_selectElementIndex].
    destruct (decide (Z.of_nat i <> -1)); [|lia].
    set (b3 := set_resizeMousePos _ _).
    assert (Hget : getSelectElement b3 (selectElementIndex b3) = Some ele).
    { unfold getSelectElement. change (selectElementIndex b3) with (Z.of_nat i).
      change (history b3) with (history b).
      case_decide; [|lia]. by rewrite Nat2Z.id. }
    rewrite (render_selected b3 ele Hget). cbn [board_of returns].
    split; [done|]. split; [done|]. split; [done|]. split; [done|].
    left. exists i, ele. by repeat split.
  - destruct (decide (-1 <> -1)); [done|].
    cbn [selectElementIndex cancelSelectElement set_selectElementIndex].
    destruct (decide (-1 <> -1)); [done|].
    rewrite render_unselected by done. cbn [board_of returns].
    split; [done|]. split; [done|]. split; [done|]. split; [done|].
    right. by repeat split.
Qed.

(** X9 (pressing on a handle of the selected element starts its drag).
    When the click falls on a handle of the selected element, the click
    returns, keeps the selection whatever element is hovered, holds that
    handle and snapshots the live stack; the pointer move that follows
    returns, marks the session as changed and leaves the selected element as
    the drag by the vector from the click to the new position makes it.
    When the click falls on no handle of the selected element and nothing is
    hovered, the selection is dropped and no snapshot is taken. *)
Theorem click_on_selected_element :
  forall (p q : MousePosition) (b : PaintBoard) (e : Element),
    selectElementIndex b <> -1 ->
    getSelectElement b (selectElementIndex b) = Some e ->
    let t := getResizeType (transformPosition b p) (ele_rect e) in
    let b1 := board_of (clickSelectElement p b) in
    let b2 := board_of (moveSelectElement q b1) in
    (t <> RESIZE_NULL ->
     returns (clickSelectElement p b) = true
     /\ selectElementIndex b1 = selectElementIndex b
     /\ resizeType b1 = t
     /\ tempCache b1 = Some (getCurrentStack (history b))
     /\ history b1 = history b
     /\ returns (moveSelectElement q b1) = true
     /\ isCurrentChange b2 = true
     /\ getSelectElement b2 (selectElementIndex b)
        = Some (dragElement t
                  (pos_x (transformPosition b q) - pos_x (transformPosition b p))%Q
                  (pos_y (transformPosition b q) - pos_y (transformPosition b p))%Q
                  e))
    /\ (t = RESIZE_NULL ->
        mouseHoverElementIndex b = -1 ->
        returns (clickSelectElement p b) = true
        /\ selectElementIndex b1 = -1
        /\ tempCache b1 = tempCache b
        /\ history b1 = history b).
Proof.
  intros p q b e Hsel He t b1 b2. unfold b2, b1, clickSelectElement.
  destruct (decide (selectElementIndex b <> -1)); [|done].
  rewrite He. fold t. cbn [and_then].
  cbn [resizeType mouseHoverElementIndex selectElementIndex set_resizeType].
  split.
  - intros Ht. destruct (decide (t = RESIZE_NULL)); [done|].
    change (selectElementIndex (set_resizeType b t)) with (selectElementIndex b).
    destruct (decide (selectElementIndex b <> -1)); [|done].
    set (b3 := set_resizeMousePos _ _).
    assert (Hget : getSelectElement b3 (selectElementIndex b3) = Some e) by exact He.
    rewrite (render_selected b3 e Hget). cbn [board_of returns].
    destruct (moveSelectElement_drags q b3 e Hsel Ht Hget) as (Hret & Hdrag & Hch).
    by repeat split.
  - intros Ht Hhover. destruct (decide (t = RESIZE_NULL)); [|done].
    destruct (decide (mouseHoverElementIndex b <> -1)); [done|].
    cbn [selectElementIndex cancelSelectElement set_selectElementIndex].
    destruct (decide (-1 <> -1)); [done|].
    rewrite render_unselected by done. by repeat split.
Qed.

End Sessions_facts.

(** X10 (a second pointer-up does nothing).  [canvasMouseUp] ends the
    session: no handle is held, no snapshot is kept, nothing is marked as
    changed, no stroke is being drawn and the recorded pan position is the
    origin; the selection and hover indices stay.  Applied again at once it
    changes nothing more, in particular it pushes nothing on the history. *)
Theorem canvasMouseUp_idempotent :
  forall b : PaintBoard,
    canvasMouseUp (canvasMouseUp b) = canvasMouseUp b
    /\ resizeType (canvasMouseUp b) = RESIZE_NULL
    /\ tempCache (canvasMouseUp b) = None
    /\ isCurrentChange (canvasMouseUp b) = false
    /\ currentMoveEle (canvasMouseUp b) = None
    /\ originPosition (canvasMouseUp b) = mkPos 0 0
    /\ selectElementIndex (canvasMouseUp b) = selectElementIndex b
    /\ mouseHoverElementIndex (canvasMouseUp b) = mouseHoverElementIndex b.
Proof.
  intros b. unfold canvasMouseUp.
  by destruct (isCurrentChange b), (tempCache b).
Qed.

(** * More on layers and new strokes *)

Lemma stable_sort_sorted_id (ls : list LayerItem) (l : list Element) :
  layerSorted ls l -> stable_sort (layerCompare ls) l = l.
Proof.
  induction 1 as [|a l Hl IH Ha]; [done|].
  change (stable_sort (layerCompare ls) (a :: l))
    with (sort_insert (layerCompare ls) a (stable_sort (layerCompare ls) l)).
  rewrite IH. destruct l as [|c l]; [done|]. simpl.
  apply Forall_cons in Ha as [Hc _].
  case_decide as Hcmp; [done|]. by apply layerCompare_le in Hc.
Qed.

Lemma sort_sorted_id (ls : list LayerItem) (h : History) :
  layerSorted ls (getCurrentStack h) -> sort (layerCompare ls) h = h.
Proof.
  unfold getCurrentStack, sort. intros Hs.
  destruct (timeline h !! step h) as [stack|] eqn:Hl; [|done].
  simpl in Hs. rewrite (stable_sort_sorted_id ls stack Hs).
  rewrite list_insert_id by done. apply history_eta.
Qed.

Lemma same_layer_sorted (ls : list LayerItem) (k : option Z) (l : list Element) :
  Forall (fun x => ele_layer x = k) l -> layerSorted ls l.
Proof.
  induction 1 as [|a l Ha Hl IH]; [constructor|].
  constructor; [done|]. eapply Forall_impl; [exact Hl|].
  simpl. intros x Hx. unfold layerIndex. by rewrite Ha, Hx.
Qed.

(** X11 (sorting by layer is idempotent).  A board whose live stack is
    already in the order of [sortOnLayer] is left exactly as it is by
    [sortOnLayer]; this is the case when all its elements are on one layer,
    and after any [sortOnLayer], so sorting twice is sorting once. *)
Theorem sortOnLayer_idempotent :
  forall b : PaintBoard,
    (layerSorted (layer_stack (layer b)) (getCurrentStack (history b)) ->
     sortOnLayer b = b)
    /\ (forall k : option Z,
          Forall (fun x => ele_layer x = k) (getCurrentStack (history b)) ->
          sortOnLayer b = b)
    /\ sortOnLayer (sortOnLayer b) = sortOnLayer b.
Proof.
  assert (Hfix : forall b : PaintBoard,
             layerSorted (layer_stack (layer b)) (getCurrentStack (history b)) ->
             sortOnLayer b = b).
  { intros b Hs. unfold sortOnLayer. rewrite sort_sorted_id by done. by destruct b. }
  intros b. split; [apply Hfix|]. split.
  - intros k Hk. by eapply Hfix, same_layer_sorted.
  - apply Hfix. unfold sortOnLayer at 2. simpl.
    rewrite getCurrentStack_sort. apply stable_sort_sorted.
Qed.

(** X12 (which elements are eligible).  The layer test of the paint pass
    and of the hover scan accepts an element exactly when the element has a
    layer id, that id is not [0], and some item of the layer stack with that
    id is shown.  So an element on a layer whose id is [0] is never painted
    nor hovered, even when that layer is shown. *)
Theorem layerShown_iff :
  forall (l : Layer) (ele : Element),
    (layerShown (showLayerIds l) ele = true
     <-> exists id : Z,
           ele_layer ele = Some id /\ id <> 0 /\ layerVisible l id)
    /\ (ele_layer ele = Some 0 -> layerShown (showLayerIds l) ele = false).
Proof.
  intros l ele. unfold layerShown. split.
  - destruct (ele_layer ele) as [id|].
    + rewrite andb_true_iff, negb_true_iff, Z.eqb_neq, bool_decide_eq_true,
        showLayerIds_spec.
      split.
      * intros [Hid Hvis]. by exists id.
      * intros (id' & Heq & Hid & Hvis). by inversion Heq; subst.
    + split; [done|]. by intros (id & Heq & _).
  - by intros ->.
Qed.

Lemma recordCurrent_stack (type : CANVAS_ELE_TYPE) (b : PaintBoard) (e : Element) :
  match type with
  | FREE_LINE =>
      e = newFreeLine (currentLineColor b) (currentLineWidth b)
                      (layer_current (layer b))
  | CLEAN_LINE => e = newCleanLine (cleanWidth b) (layer_current (layer b))
  | TEXT => False
  end ->
  currentMoveEle (recordCurrent type b) = Some e
  /\ getCurrentStack (history (recordCurrent type b))
     = stable_sort (layerCompare (layer_stack (layer b)))
                   (getCurrentStack (history b) ++ [e])
  /\ selectElementIndex (recordCurrent type b) = -1.
Proof.
  intros He. destruct type; [| |done]; subst e; unfold recordCurrent, sortOnLayer;
    simpl; by rewrite getCurrentStack_sort, getCurrentStack_add.
Qed.

(** X13 (a new stroke takes the current style).  After [setLineColor] and
    [setLineWidth], where an empty colour or a zero width is ignored,
    [recordCurrent] for a stroke makes the stroke being drawn one built from
    the colour and width in force and the current layer, clears the
    selection, and adds exactly that stroke to the live stack: the new live
    stack is a permutation of the former elements and the stroke, and when
    all the former elements are on the current layer the stroke comes last,
    on top.  The same holds for an eraser stroke and [setCleanWidth]. *)
Theorem new_stroke_takes_current_style :
  forall (width : Q) (color : string) (b : PaintBoard),
    let stack := getCurrentStack (history b) in
    let current := layer_current (layer b) in
    (let e := newFreeLine
                (if String.eqb color EmptyString then currentLineColor b else color)
                (if Qeq_bool width 0 then currentLineWidth b else width)
                current in
     let b' := recordCurrent FREE_LINE (setLineColor color (setLineWidth width b)) in
     currentMoveEle b' = Some e
     /\ selectElementIndex b' = -1
     /\ getCurrentStack (history b') ≡ₚ stack ++ [e]
     /\ (Forall (fun x => ele_layer x = Some current) stack ->
         getCurrentStack (history b') = stack ++ [e]))
    /\ (let e := newCleanLine (if Qeq_bool width 0 then cleanWidth b else width)
                              current in
        let b' := recordCurrent CLEAN_LINE (setCleanWidth width b) in
        currentMoveEle b' = Some e
        /\ selectElementIndex b' = -1
        /\ getCurrentStack (history b') ≡ₚ stack ++ [e]
        /\ (Forall (fun x => ele_layer x = Some current) stack ->
            getCurrentStack (history b') = stack ++ [e])).
Proof.
  intros width color b stack current.
  assert (Hgen : forall (type : CANVAS_ELE_TYPE) (b0 : PaintBoard) (e : Element),
             history b0 = history b -> layer b0 = layer b ->
             ele_layer e = Some current ->
             match type with
             | FREE_LINE =>
                 e = newFreeLine (currentLineColor b0) (currentLineWidth b0)
                                 (layer_current (layer b0))
             | CLEAN_LINE => e = newCleanLine (cleanWidth b0) (layer_current (layer b0))
             | TEXT => False
             end ->
             currentMoveEle (recordCurrent type b0) = Some e
             /\ selectElementIndex (recordCurrent type b0) = -1
             /\ getCurrentStack (history (recordCurrent type b0)) ≡ₚ stack ++ [e]
             /\ (Forall (fun x => ele_layer x = Some current) stack ->
                 getCurrentStack (history (recordCurrent type b0)) = stack ++ [e])).
  { intros type b0 e Hh Hl Hlay He.
    destruct (recordCurrent_stack type b0 e He) as (Hcur & Hst & Hsel).
    rewrite Hh, Hl in Hst. fold stack in Hst.
    split; [done|]. split; [done|]. rewrite Hst. split.
    - apply stable_sort_perm.
    - intros Hall. apply stable_sort_sorted_id.
      apply (same_layer_sorted _ (Some current)).
      apply Forall_app. split; [done|]. by constructor. }
  unfold setLineColor, setLineWidth, setCleanWidth, truthy. split.
  - destruct (Qeq_bool width 0), (String.eqb color EmptyString);
      cbv beta iota zeta delta [negb]; apply (Hgen FREE_LINE); reflexivity.
  - destruct (Qeq_bool width 0);
      cbv beta iota zeta delta [negb]; apply (Hgen CLEAN_LINE); reflexivity.
Qed.

Lemma addTextElement_stack (value : string) (rect : ElementRect) (b : PaintBoard) :
  value <> EmptyString ->
  exists text : Element,
    ele_layer text = Some (layer_current (layer b))
    /\ getCurrentStack (history (board_of (addTextElement value rect b)))
       = getCurrentStack (history b) ++ [text]
    /\ layer (board_of (addTextElement value rect b)) = layer b.
Proof.
  intros Hv. unfold addTextElement.
  destruct (String.eqb_spec value EmptyString) as [->|_]; [done|].
  cbn [negb]. rewrite render_board. eexists.
  split; [|split; [apply getCurrentStack_add|reflexivity]]. reflexivity.
Qed.

(** X14 (a new text is not put in layer order).  [addTextElement] appends
    the text to the live stack without sorting.  So when the live stack holds
    an element whose layer comes before the current layer in the layer stack,
    the live stack is out of the order of [sortOnLayer] after the text is
    added, the text being painted above that element; the next
    [recordCurrent] for a stroke sorts the live stack again. *)
Theorem addTextElement_leaves_stack_unsorted :
  forall (value : string) (rect : ElementRect) (b : PaintBoard) (x : Element),
    value <> EmptyString ->
    x ∈ getCurrentStack (history b) ->
    layerIndex (layer_stack (layer b)) x
    < findIndex (layer_stack (layer b)) (Some (layer_current (layer b))) ->
    let b' := board_of (addTextElement value rect b) in
    ~ layerSorted (layer_stack (layer b)) (getCurrentStack (history b'))
    /\ layerSorted (layer_stack (layer b))
         (getCurrentStack (history (recordCurrent FREE_LINE b'))).
Proof.
  intros value rect b x Hv Hx Hlt b'. unfold b'.
  destruct (addTextElement_stack value rect b Hv) as (text & Hlay & Hst & Hl).
  split.
  - rewrite Hst. intros Hsorted.
    apply list_elem_of_lookup in Hx as [i Hi].
    pose proof (lookup_lt_Some _ _ _ Hi) as Hlen.
    pose proof (StronglySorted_lookup _ _ Hsorted i
                  (length (getCurrentStack (history b))) x text Hlen
                  (lookup_app_l_Some _ _ _ _ Hi)
                  (list_lookup_middle _ [] _ _ eq_refl)) as Hle.
    simpl in Hle. unfold layerIndex in Hle at 1. rewrite Hlay in Hle. lia.
  - destruct (recordCurrent_stack FREE_LINE (board_of (addTextElement value rect b))
                _ eq_refl) as (_ & Hrec & _).
    rewrite Hrec, Hl. apply stable_sort_sorted.
Qed.

(** * The further properties on the sample boards *)

(** X1 on the panned board: the first event records [(100, 200)] and the pan
    offset stays [(5, 7)]. *)
Lemma pan_first_event_records_only_witness :
  (pos_x (originPosition pannedBoard) == 0)%Q
  /\ dragCanvas (mkPos 110 220) pannedBoard
     = Returned (set_originPosition pannedBoard (mkPos (110 - 10) (220 - 20)))
  /\ originTranslate (board_of (dragCanvas (mkPos 110 220) (canvasMouseUp panningBoard)))
     = mkPos 5 7.
Proof.
  destruct (pan_first_event_records_only (mkPos 110 220) pannedBoard)
    as (Hfirst & _).
  destruct (pan_first_event_records_only (mkPos 110 220) panningBoard)
    as (_ & _ & Hup).
  split; [reflexivity|]. split; [|exact Hup].
  apply Hfirst. left. reflexivity.
Defined.

(** X2 on the panned board: from [(110, 220)] by [(150, 300)] to
    [(130, 240)], the pan offset grows by [(20, 20)]. *)
Lemma pan_net_displacement_witness :
  returns (render pannedBoard) = true
  /\ Forall (offEdge pannedBoard) [mkPos 110 220; mkPos 150 300]
  /\ pixel (canvasRect_left pannedBoard)
  /\ pixel (canvasRect_top pannedBoard)
  /\ pixelPos (originTranslate pannedBoard)
  /\ Forall pixelPos [mkPos 110 220; mkPos 150 300; mkPos 130 240]
  /\ (pos_x (originTranslate
               (board_of (dragAll [mkPos 110 220; mkPos 150 300; mkPos 130 240]
                            (initOriginPosition pannedBoard))))
      == 5 + (130 - 110))%Q
  /\ (pos_y (originTranslate
               (board_of (dragAll [mkPos 110 220; mkPos 150 300; mkPos 130 240]
                            (initOriginPosition pannedBoard))))
      == 7 + (240 - 220))%Q.
Proof.
  assert (Hoff : Forall (offEdge pannedBoard) [mkPos 110 220; mkPos 150 300]).
  { repeat constructor; discriminate. }
  assert (Hl : pixel (canvasRect_left pannedBoard)).
  { apply (pixel_inject 10). vm_compute. discriminate. }
  assert (Ht : pixel (canvasRect_top pannedBoard)).
  { apply (pixel_inject 20). vm_compute. discriminate. }
  assert (Ho : pixelPos (originTranslate pannedBoard)).
  { apply (pixelPos_inject 5 7); vm_compute; discriminate. }
  assert (Hps : Forall pixelPos [mkPos 110 220; mkPos 150 300; mkPos 130 240]).
  { apply Forall_cons. split.
    { apply (pixelPos_inject 110 220); vm_compute; discriminate. }
    apply Forall_cons. split.
    { apply (pixelPos_inject 150 300); vm_compute; discriminate. }
    apply Forall_cons. split; [|apply Forall_nil_2].
    apply (pixelPos_inject 130 240); vm_compute; discriminate. }
  destruct (pan_net_displacement pannedBoard (mkPos 110 220) (mkPos 130 240)
              [mkPos 150 300] eq_refl Hoff Hl Ht Ho Hps) as (_ & Hx & Hy & _).
  split; [reflexivity|]. split; [exact Hoff|]. split; [exact Hl|].
  split; [exact Ht|]. split; [exact Ho|]. split; [exact Hps|].
  split; [exact Hx|exact Hy].
Defined.

(** X3 on the panning board: after the pan by [(30, 40)], the page position
    [(60 + 30, 70 + 40)] has the board coordinates [(60, 70)] had. *)
Lemma pan_keeps_board_coordinates_witness :
  ~ (pos_x (originPosition panningBoard) == 0)%Q
  /\ ~ (pos_y (originPosition panningBoard) == 0)%Q
  /\ returns (render panningBoard) = true
  /\ pixel (canvasRect_left panningBoard)
  /\ pixel (canvasRect_top panningBoard)
  /\ pixelPos (originTranslate panningBoard)
  /\ pixelPos (originPosition panningBoard)
  /\ pixelPos (mkPos 140 260)
  /\ pixelPos (mkPos 60 70)
  /\ (pos_x (transformPosition (board_of (dragCanvas (mkPos 140 260) panningBoard))
               (mkPos (60 + (140 - 10 - 100)) (70 + (260 - 20 - 200))))
      == pos_x (transformPosition panningBoard (mkPos 60 70)))%Q.
Proof.
  assert (Hx : ~ (pos_x (originPosition panningBoard) == 0)%Q) by discriminate.
  assert (Hy : ~ (pos_y (originPosition panningBoard) == 0)%Q) by discriminate.
  assert (Hl : pixel (canvasRect_left panningBoard)).
  { apply (pixel_inject 10). vm_compute. discriminate. }
  assert (Ht : pixel (canvasRect_top panningBoard)).
  { apply (pixel_inject 20). vm_compute. discriminate. }
  assert (Ho : pixelPos (originTranslate panningBoard)).
  { apply (pixelPos_inject 5 7); vm_compute; discriminate. }
  assert (Hr : pixelPos (originPosition panningBoard)).
  { apply (pixelPos_inject 100 200); vm_compute; discriminate. }
  assert (Hp : pixelPos (mkPos 140 260)).
  { apply (pixelPos_inject 140 260); vm_compute; discriminate. }
  assert (Hq : pixelPos (mkPos 60 70)).
  { apply (pixelPos_inject 60 70); vm_compute; discriminate. }
  split; [exact Hx|]. split; [exact Hy|]. split; [reflexivity|].
  split; [exact Hl|]. split; [exact Ht|]. split; [exact Ho|].
  split; [exact Hr|]. split; [exact Hp|]. split; [exact Hq|].
  exact (proj1 (pan_keeps_board_coordinates (mkPos 140 260) (mkPos 60 70)
                  panningBoard Hx Hy eq_refl Hl Ht Ho Hr Hp Hq)).
Defined.

(** X4 on the two overlapping texts, nothing selected. *)
Lemma move_outside_drag_keeps_board_witness :
  selectElementIndex overlapBoard = -1
  /\ (exists v : Z,
         board_of (@moveSelectElement sampleCommon specElementOps (mkPos 60 60)
                     overlapBoard)
         = set_mouseHoverElementIndex overlapBoard v)
  /\ returns (@moveSelectElement sampleCommon specElementOps (mkPos 60 60) overlapBoard)
     = true.
Proof.
  destruct (@move_outside_drag_keeps_board sampleCommon specElementOps (mkPos 60 60)
              overlapBoard (or_introl eq_refl)) as (Hex & Hret).
  split; [reflexivity|]. split; [exact Hex|exact (Hret eq_refl)].
Defined.

(** X5 on the lower text dragged by its body: the upper text is untouched. *)
Lemma drag_frame_changes_only_selected_witness :
  selectElementIndex textDragBoard <> -1
  /\ resizeType textDragBoard <> RESIZE_NULL
  /\ getSelectElement textDragBoard (selectElementIndex textDragBoard) = Some lowerText
  /\ getSelectElement
       (board_of (@moveSelectElement sampleCommon specElementOps (mkPos 30 40)
                    textDragBoard)) 1
     = Some upperText.
Proof.
  assert (Hsel : selectElementIndex textDragBoard <> -1) by discriminate.
  assert (Hrt : resizeType textDragBoard <> RESIZE_NULL) by discriminate.
  destruct (@drag_frame_changes_only_selected sampleCommon specElementOps (mkPos 30 40)
              textDragBoard lowerText Hsel Hrt eq_refl) as (_ & Hother & _).
  split; [exact Hsel|]. split; [exact Hrt|]. split; [reflexivity|].
  exact (Hother 1 ltac:(discriminate)).
Defined.

(** X6 on the lower text grabbed at [(20, 20)] and taken by [(30, 40)] to
    [(25, 20)]: it ends 5 to the right of where it was. *)
Lemma text_body_drag_follows_pointer_witness :
  selectElementIndex textDragBoard <> -1
  /\ resizeType textDragBoard = RESIZE_BODY
  /\ getSelectElement textDragBoard (selectElementIndex textDragBoard) = Some lowerText
  /\ pixel (canvasRect_left textDragBoard)
  /\ pixel (canvasRect_top textDragBoard)
  /\ pixelPos (originTranslate textDragBoard)
  /\ pixelPos (resizeMousePos textDragBoard)
  /\ pixel (rect_x (ele_rect lowerText))
  /\ pixel (rect_y (ele_rect lowerText))
  /\ Forall pixelPos [mkPos 30 40; mkPos 25 20]
  /\ returns (@moveAll sampleCommon specElementOps [mkPos 30 40; mkPos 25 20]
                textDragBoard) = true
  /\ exists r' : ElementRect,
       getSelectElement
         (board_of (@moveAll sampleCommon specElementOps [mkPos 30 40; mkPos 25 20]
                      textDragBoard)) 0
       = Some (TextElement (Some 1) "a" r')
       /\ (rect_x r' == 0 + (25 - 20))%Q
       /\ (rect_y r' == 0 + (20 - 20))%Q.
Proof.
  assert (Hsel : selectElementIndex textDragBoard <> -1) by discriminate.
  assert (H0 : pixel 0).
  { apply (pixel_inject 0). vm_compute. discriminate. }
  assert (H00 : pixelPos (mkPos 0 0)) by (by split).
  assert (Hm : pixelPos (resizeMousePos textDragBoard)).
  { apply (pixelPos_inject 20 20); vm_compute; discriminate. }
  assert (Hps : Forall pixelPos [mkPos 30 40; mkPos 25 20]).
  { apply Forall_cons. split.
    { apply (pixelPos_inject 30 40); vm_compute; discriminate. }
    apply Forall_cons. split; [|apply Forall_nil_2].
    apply (pixelPos_inject 25 20); vm_compute; discriminate. }
  destruct (@text_body_drag_follows_pointer sampleCommon specElementOps
              [mkPos 30 40] (mkPos 25 20) textDragBoard (Some 1) "a"%string
              (mkRect 0 0 100 100) Hsel eq_refl eq_refl H0 H0 H00 Hm H0 H0 Hps)
    as (Hret & r' & Hget & Hx & Hy & _).
  split; [exact Hsel|]. split; [reflexivity|]. split; [reflexivity|].
  split; [exact H0|]. split; [exact H0|]. split; [exact H00|].
  split; [exact Hm|]. split; [exact H0|]. split; [exact H0|].
  split; [exact Hps|].
  split; [exact Hret|]. exists r'. split; [exact Hget|]. split.
  - rewrite Hx. reflexivity.
  - rewrite Hy. reflexivity.
Defined.

(** X7 on the board emptied while the upper text was hovered. *)
Lemma stale_hover_on_empty_board_throws_witness :
  getCurrentStack (history clearedBoard) = []
  /\ selectElementIndex clearedBoard = -1
  /\ resizeType clearedBoard = RESIZE_NULL
  /\ mouseHoverElementIndex clearedBoard = 1
  /\ selectElementIndex
       (board_of (@clickSelectElement sampleCommon (mkPos 60 60) clearedBoard)) = 1
  /\ returns (@moveSelectElement sampleCommon specElementOps (mkPos 61 61)
                (board_of (@clickSelectElement sampleCommon (mkPos 60 60) clearedBoard)))
     = false.
Proof.
  destruct (@stale_hover_on_empty_board_throws sampleCommon specElementOps
              (mkPos 60 60) (mkPos 61 61) clearedBoard eq_refl eq_refl eq_refl
              ltac:(discriminate)) as (_ & _ & Hsel & Hthrow).
  split; [reflexivity|]. split; [reflexivity|]. split; [reflexivity|].
  split; [reflexivity|]. split; [exact Hsel|exact Hthrow].
Defined.

(** X8 on the two overlapping texts: the click selects the upper one. *)
Lemma hover_then_click_selects_candidate_witness :
  hasElements overlapBoard = true
  /\ selectElementIndex overlapBoard = -1
  /\ resizeType overlapBoard = RESIZE_NULL
  /\ history
       (board_of (@clickSelectElement sampleCommon (mkPos 60 60)
                    (board_of (@moveSelectElement sampleCommon specElementOps
                                 (mkPos 60 60) overlapBoard))))
     = history overlapBoard
  /\ selectElementIndex
       (board_of (@clickSelectElement sampleCommon (mkPos 60 60)
                    (board_of (@moveSelectElement sampleCommon specElementOps
                                 (mkPos 60 60) overlapBoard))))
     = 1.
Proof.
  destruct (@hover_then_click_selects_candidate sampleCommon specElementOps
              (mkPos 60 60) (mkPos 60 60) overlapBoard eq_refl eq_refl eq_refl)
    as (_ & _ & Hh & _).
  split; [reflexivity|]. split; [reflexivity|]. split; [reflexivity|].
  split; [exact Hh|reflexivity].
Defined.

(** X9 on the selected lower text: a click on its body at [(20, 20)] and a
    move to [(30, 40)] drag it by [(10, 20)]; a click far away drops the
    selection. *)
Lemma click_on_selected_element_witness :
  selectElementIndex selectedBoard <> -1
  /\ getSelectElement selectedBoard (selectElementIndex selectedBoard) = Some lowerText
  /\ specGetResizeType 5 (mkPos 20 20) (ele_rect lowerText) = RESIZE_BODY
  /\ getSelectElement
       (board_of (@moveSelectElement sampleCommon specElementOps (mkPos 30 40)
                    (board_of (@clickSelectElement sampleCommon (mkPos 20 20)
                                 selectedBoard)))) 0
     = Some (@dragElement specElementOps RESIZE_BODY (30 - 20) (40 - 20) lowerText)
  /\ specGetResizeType 5 (mkPos 500 500) (ele_rect lowerText) = RESIZE_NULL
  /\ selectElementIndex
       (board_of (@clickSelectElement sampleCommon (mkPos 500 500) selectedBoard))
     = -1.
Proof.
  assert (Hsel : selectElementIndex selectedBoard <> -1) by discriminate.
  destruct (@click_on_selected_element sampleCommon specElementOps (mkPos 20 20)
              (mkPos 30 40) selectedBoard lowerText Hsel eq_refl) as (Hdrag & _).
  destruct (@click_on_selected_element sampleCommon specElementOps (mkPos 500 500)
              (mkPos 30 40) selectedBoard lowerText Hsel eq_refl) as (_ & Haway).
  destruct (Hdrag ltac:(discriminate)) as (_ & _ & _ & _ & _ & _ & _ & Hget).
  destruct (Haway eq_refl eq_refl) as (_ & Hnone & _).
  split; [exact Hsel|]. split; [reflexivity|]. split; [reflexivity|].
  split; [exact Hget|]. split; [reflexivity|exact Hnone].
Defined.

(** X11 on a board whose elements are all on the first layer. *)
Lemma sortOnLayer_idempotent_witness :
  Forall (fun x => ele_layer x = Some 1) (getCurrentStack (history eraserBoard))
  /\ sortOnLayer eraserBoard = eraserBoard
  /\ sortOnLayer (sortOnLayer overlapBoard) = sortOnLayer overlapBoard.
Proof.
  assert (Hall : Forall (fun x => ele_layer x = Some 1)
                        (getCurrentStack (history eraserBoard))).
  { repeat constructor. }
  split; [exact Hall|]. split.
  - exact (proj1 (proj2 (sortOnLayer_idempotent eraserBoard)) (Some 1) Hall).
  - exact (proj2 (proj2 (sortOnLayer_idempotent overlapBoard))).
Defined.

(** X12 on a shown layer of id [0]: its elements are not eligible. *)
Lemma layerShown_iff_witness :
  layerVisible zeroLayer 0
  /\ layerShown (showLayerIds zeroLayer) (TextElement (Some 0) "a" (mkRect 0 0 1 1))
     = false
  /\ layerShown (showLayerIds twoLayers) lowerText = true.
Proof.
  split.
  - exists (mkLayerItem 0 true). split; [apply list_elem_of_here|]. by split.
  - split.
    + exact (proj2 (layerShown_iff zeroLayer
                      (TextElement (Some 0) "a" (mkRect 0 0 1 1))) eq_refl).
    + apply (proj1 (layerShown_iff twoLayers lowerText)).
      exists 1. split; [reflexivity|]. split; [discriminate|].
      exists (mkLayerItem 1 true). split; [apply list_elem_of_here|]. by split.
Defined.

(** X13 on the board whose elements are all on the current layer: a zero
    width is ignored, the red stroke of width 4 comes last. *)
Lemma new_stroke_takes_current_style_witness :
  Forall (fun x => ele_layer x = Some (layer_current (layer eraserBoard)))
         (getCurrentStack (history eraserBoard))
  /\ getCurrentStack
       (history (recordCurrent FREE_LINE
                   (setLineColor "#ff0000" (setLineWidth 0 eraserBoard))))
     = [lowerText; eraser; newFreeLine "#ff0000" 4 1].
Proof.
  assert (Hall : Forall (fun x => ele_layer x = Some (layer_current (layer eraserBoard)))
                        (getCurrentStack (history eraserBoard))).
  { repeat constructor. }
  split; [exact Hall|].
  exact (proj2 (proj2 (proj2 (proj1
           (new_stroke_takes_current_style 0 "#ff0000" eraserBoard)))) Hall).
Defined.

(** X14 on the sorted board whose current layer is the second one: the text
    lands above the element of the first layer. *)
Lemma addTextElement_leaves_stack_unsorted_witness :
  "hi"%string <> EmptyString
  /\ lowerText ∈ getCurrentStack (history secondLayerBoard)
  /\ layerIndex (layer_stack (layer secondLayerBoard)) lowerText
     < findIndex (layer_stack (layer secondLayerBoard))
                 (Some (layer_current (layer secondLayerBoard)))
  /\ layerSorted (layer_stack (layer secondLayerBoard))
       (getCurrentStack
          (history (recordCurrent FREE_LINE
                      (board_of (addTextElement "hi" (mkRect 0 0 10 10)
                                   secondLayerBoard))))).
Proof.
  assert (Hv : "hi"%string <> EmptyString) by discriminate.
  assert (Hin : lowerText ∈ getCurrentStack (history secondLayerBoard)).
  { apply list_elem_of_further, list_elem_of_here. }
  assert (Hlt : layerIndex (layer_stack (layer secondLayerBoard)) lowerText
                < findIndex (layer_stack (layer secondLayerBoard))
                            (Some (layer_current (layer secondLayerBoard)))).
  { reflexivity. }
  split; [exact Hv|]. split; [exact Hin|]. split; [exact Hlt|].
  exact (proj2 (addTextElement_leaves_stack_unsorted "hi" (mkRect 0 0 10 10)
                  secondLayerBoard lowerText Hv Hin Hlt)).
Defined.
